(** * bamboohr: the employee client (employees.go)

    A shallow embedding of [employees.go]: the field set and its [Join],
    the three directory/employee operations of the client, and the
    properties of the written specification that concern them.

    Go strings are byte sequences, and so are Rocq's [string]s (lists of
    8-bit [ascii]); [len] is [String.length] and [==] is equality of the
    byte sequences.  Lengths are modelled in [nat]: a Go [int] holds
    the length of any string or slice that exists, and the only sum of
    lengths computed here is the length of a string about to be
    built. *)

From Stdlib Require Import String Ascii List Arith Lia Bool.
From stdpp Require Import base option list strings gmap.
Import ListNotations.
Local Open Scope string_scope.
Set Warnings "-register-all".

(** ** Field set *)

(** [type EmployeeField string] *)
Definition EmployeeField : Type := string.

(** [type EmployeeFields []EmployeeField] *)
Definition EmployeeFields : Type := list EmployeeField.

(** *** [strings.Builder]

    The builder is its accumulated bytes together with the capacity of
    the backing array.  [Grow] only reserves capacity; [WriteString]
    appends, enlarging the backing array when the bytes do not fit. *)
Module Builder.

Record t : Type := mk { buf : string; cap : nat }.

(** [var b strings.Builder] *)
Definition zero : t := {| buf := ""; cap := 0 |}.

(** [b.Grow(n)]: if fewer than [n] bytes are free, the backing array
    is replaced by one of capacity [2*cap + n]. *)
Definition Grow (b : t) (n : nat) : t :=
  if (cap b - String.length (buf b) <? n)%nat
  then {| buf := buf b; cap := 2 * cap b + n |}
  else b.

(** [b.WriteString(s)]: [append(b.buf, s...)]. *)
Definition WriteString (b : t) (s : string) : t :=
  {| buf := buf b +:+ s;
     cap := Nat.max (cap b) (String.length (buf b +:+ s)) |}.

(** [b.String()] *)
Definition String (b : t) : string := buf b.

End Builder.

(** The capacity computed by [Join] before it builds anything:
    [n := len(sep) * (len(ef) - 1)], then [n += len(ef[i])] for every
    index. *)
Definition Join_n (ef : EmployeeFields) (sep : string) : nat :=
  let n := String.length sep * (length ef - 1) in
  fold_left (fun n s => n + String.length s) ef n.

(** The builder [Join] ends with, for a field set of two or more
    tokens. *)
Definition Join_builder (ef : EmployeeFields) (sep : string) : Builder.t :=
  match ef with
  | [] => Builder.zero
  | ef0 :: rest =>
      let n := Join_n ef sep in
      let b := Builder.zero in
      let b := Builder.Grow b n in
      let b := Builder.WriteString b ef0 in
      fold_left
        (fun b s => Builder.WriteString (Builder.WriteString b sep) s)
        rest b
  end.

(** [func (ef EmployeeFields) Join(sep string) string] *)
Definition Join (ef : EmployeeFields) (sep : string) : string :=
  match ef with
  | [] => ""
  | [ef0] => ef0
  | _ => Builder.String (Join_builder ef sep)
  end.

(** Fields for [GetEmployee]. *)
Definition DisplayName : EmployeeField := "DisplayName".
Definition FirstName : EmployeeField := "FirstName".
Definition LastName : EmployeeField := "LastName".
Definition PreferredName : EmployeeField := "PreferredName".
Definition Gender : EmployeeField := "Gender".
Definition JobTitle : EmployeeField := "JobTitle".
Definition WorkPhone : EmployeeField := "WorkPhone".
Definition MobilePhone : EmployeeField := "MobilePhone".
Definition WorkEmail : EmployeeField := "WorkEmail".
Definition Department : EmployeeField := "Department".
Definition Location : EmployeeField := "Location".
Definition Division : EmployeeField := "Division".
Definition LinkedIn : EmployeeField := "LinkedIn".
Definition WorkPhoneExtension : EmployeeField := "WorkPhoneExtension".
Definition PhotoUploaded : EmployeeField := "PhotoUploaded".
Definition PhotoURL : EmployeeField := "PhotoURL".
Definition CanUploadPhoto : EmployeeField := "CanUploadPhoto".
Definition HireDate : EmployeeField := "HireDate".
Definition ReportingTo : EmployeeField := "Reporting to".

(** ** Data model *)

(** [type Employee struct]: every attribute is a string except
    [PhotoUploaded] ([*bool]) and [CanUploadPhoto] ([*int]); a nil
    pointer is [None]. *)
Module Employee.

Record t : Type := mk {
  ID : string;
  DisplayName : string;
  FirstName : string;
  LastName : string;
  PreferredName : string;
  Gender : string;
  JobTitle : string;
  WorkPhone : string;
  MobilePhone : string;
  WorkEmail : string;
  Department : string;
  Location : string;
  Division : string;
  LinkedIn : string;
  WorkPhoneExtension : string;
  PhotoUploaded : option bool;
  PhotoURL : string;
  CanUploadPhoto : option Z;
  HireDate : string
}.

(** [var employee Employee]: the zero value. *)
Definition zero : t :=
  mk "" "" "" "" "" "" "" "" "" "" "" "" "" "" "" None "" None "".

End Employee.

(** [type EmployeeResponse struct { Employees []Employee }]; the nil
    slice is the empty list. *)
Record EmployeeResponse : Type := { Employees : list Employee.t }.

(** ** The parts of [net/url] and [net/http] the client touches *)

Module url.

(** [url.Values] is [map[string][]string]. *)
Abbreviation Values := (gmap string (list string)).

(** [v.Add(key, value)]: [v[key] = append(v[key], value)]. *)
Definition Add (v : Values) (key value : string) : Values :=
  <[key := (default [] (v !! key) ++ [value])%list]> v.

(** [v.Get(key)]: the first value under [key], or the empty string. *)
Definition Get (v : Values) (key : string) : string :=
  match v !! key with
  | Some (x :: _) => x
  | _ => ""
  end.

(** [url.URL].  The query component is kept decoded: [RawQuery] holds
    the [Values] that [u.Query()] parses out of the Go field and that
    [q.Encode()] serialises back into it. *)
Record URL : Type := {
  Scheme : string;
  Host : string;
  Path : string;
  RawQuery : Values;
  Fragment : string
}.

(** [u.Query()] *)
Definition Query (u : URL) : Values := RawQuery u.

(** [u.RawQuery = q.Encode()] *)
Definition set_RawQuery (u : URL) (q : Values) : URL :=
  {| Scheme := Scheme u; Host := Host u; Path := Path u;
     RawQuery := q; Fragment := Fragment u |}.

End url.

(** [makeRequest] takes the value to decode into as an [interface{}];
    employees.go hands it a [*EmployeeResponse] or an [*Employee]. *)
Inductive OutKind : Type := OutEmployeeResponse | OutEmployee.

Definition Out (k : OutKind) : Type :=
  match k with
  | OutEmployeeResponse => EmployeeResponse
  | OutEmployee => Employee.t
  end.

(** [http.Request], as far as the client reads or writes it. *)
Record Request {Ctx : Type} : Type := {
  Method : string;
  URL : url.URL;
  ctx : Ctx
}.
Arguments Request : clear implicits.

(** [type Client struct]: the configuration the operations read. *)
Record Client : Type := { BaseURL : string }.

(** What the client takes from its surroundings: contexts, the errors
    its collaborators raise, URL parsing, and the [makeRequest] method of
    [Client] (declared outside employees.go), which sends a request and
    decodes the JSON body into the value it is handed. *)
Class Env : Type := {
  (** [context.Context] *)
  Ctx : Type;
  Background : Ctx;
  TODO : Ctx;
  (** errors raised by [net/url], [net/http] and [makeRequest] *)
  ExtErr : Type;
  (** the remote service and the network, as [makeRequest] sees them *)
  World : Type;
  (** [url.Parse] *)
  url_Parse : string -> ExtErr + url.URL;
  (** [c.makeRequest(req, &v)]: the value [v] as the call leaves it and
      the error it returns *)
  Client_makeRequest :
    Client -> forall k : OutKind, Request Ctx -> Out k -> World ->
    (Out k * option ExtErr) * World
}.

(** Go's [error] values met in this file: those built here by
    [errors.New], each a fresh value distinct from whatever a
    collaborator returns, and those handed up by a collaborator. *)
Inductive error {env : Env} : Type :=
  | errors_New (msg : string)
  | Collab (e : ExtErr).

Section Operations.
Context {env : Env}.

(** [http.NewRequest(method, url, nil)]: parses the URL and attaches
    the background context.  (Its only other failure is a malformed
    method name, which ["GET"] is not.) *)
Definition NewRequest (method url : string) : ExtErr + Request Ctx :=
  match url_Parse url with
  | inl err => inl err
  | inr u => inr {| Method := method; URL := u; ctx := Background |}
  end.

(** [req.WithContext(ctx)] *)
Definition WithContext (req : Request Ctx) (c : Ctx) : Request Ctx :=
  {| Method := Method req; URL := URL req; ctx := c |}.

(** [req.URL.RawQuery = q.Encode()] *)
Definition set_URL_RawQuery (req : Request Ctx) (q : url.Values)
  : Request Ctx :=
  {| Method := Method req; URL := url.set_RawQuery (URL req) q;
     ctx := ctx req |}.

(** The state an operation runs in: the world behind [makeRequest],
    and the requests sent so far, oldest first. *)
Record State : Type := { world : World; issued : list (Request Ctx) }.

Definition M (A : Type) : Type := State -> A * State.

#[export] Instance M_ret : MRet M := fun A a s => (a, s).
#[export] Instance M_bind : MBind M :=
  fun A B f m s => let '(a, s') := m s in f a s'.

(** [c.makeRequest(req, &v)], recording the request. *)
Definition makeRequest (c : Client) (k : OutKind) (req : Request Ctx)
    (v : Out k) : M (Out k * option ExtErr) :=
  fun s =>
    let '(r, w) := Client_makeRequest c k req v (world s) in
    (r, {| world := w; issued := (issued s ++ [req])%list |}).

(** [func (c *Client) GetEmployeeDirectory(ctx context.Context)
    ([]Employee, error)] *)
Definition GetEmployeeDirectory (c : Client) (ctx : Ctx)
  : M (list Employee.t * option error) :=
  let url := BaseURL c +:+ "/employees/directory" in
  match NewRequest "GET" url with
  | inl err => mret ([], Some (Collab err))
  | inr req =>
      let req := WithContext req ctx in
      let er := {| Employees := [] |} in
      '(er, err) ← makeRequest c OutEmployeeResponse req er;
      match err with
      | Some err => mret ([], Some (Collab err))
      | None => mret (Employees er, None)
      end
  end.

(** The loop of [GetEmployeeIDByEmail] together with the [return]
    after it: the first entry whose [WorkEmail] is [email] ends the
    function with its [ID]. *)
Fixpoint GetEmployeeIDByEmail_scan (directory : list Employee.t)
    (email : string) : string * option error :=
  match directory with
  | [] => ("", None)
  | e :: directory' =>
      if String.eqb (Employee.WorkEmail e) email
      then (Employee.ID e, None)
      else GetEmployeeIDByEmail_scan directory' email
  end.

(** [func (c *Client) GetEmployeeIDByEmail(email string)
    (string, error)] *)
Definition GetEmployeeIDByEmail (c : Client) (email : string)
  : M (string * option error) :=
  '(directory, err) ← GetEmployeeDirectory c TODO;
  match err with
  | Some err => mret ("", Some err)
  | None => mret (GetEmployeeIDByEmail_scan directory email)
  end.

(** The loop of [GetEmployeeByEmail]: [id] keeps its value unless an
    entry matches, in which case it takes that entry's [ID] and the
    loop breaks. *)
Fixpoint GetEmployeeByEmail_scan (id : string)
    (directory : list Employee.t) (email : string) : string :=
  match directory with
  | [] => id
  | e :: directory' =>
      if String.eqb (Employee.WorkEmail e) email
      then Employee.ID e
      else GetEmployeeByEmail_scan id directory' email
  end.

(** [ef = append(ef, field)] for each of [fields], in order. *)
Definition append_all (ef : EmployeeFields) (fields : list EmployeeField)
  : EmployeeFields :=
  fold_left (fun ef field => (ef ++ [field])%list) fields ef.

(** The field set [GetEmployee] uses when the caller names none. *)
Definition default_fields : EmployeeFields :=
  [DisplayName; FirstName; LastName; PreferredName; Gender; JobTitle;
   WorkPhone; MobilePhone; WorkEmail; Department; Location; Division;
   LinkedIn; WorkPhoneExtension; PhotoUploaded; PhotoURL; CanUploadPhoto;
   HireDate].

(** [func (c *Client) GetEmployee(ctx context.Context, id string,
    fields ...EmployeeField) (Employee, error)] *)
Definition GetEmployee (c : Client) (ctx : Ctx) (id : string)
    (fields : list EmployeeField) : M (Employee.t * option error) :=
  let employee := Employee.zero in
  let url := BaseURL c +:+ "/employees/" +:+ id in
  match NewRequest "GET" url with
  | inl err => mret (employee, Some (Collab err))
  | inr req =>
      let ef : EmployeeFields := [] in
      let ef :=
        if (0 <? length fields)%nat
        then append_all [] fields
        else default_fields in
      let q := url.Query (URL req) in
      let q := url.Add q "fields" (Join ef ",") in
      let req := set_URL_RawQuery req q in
      let req := WithContext req ctx in
      '(employee, err) ← makeRequest c OutEmployee req employee;
      match err with
      | Some err => mret (employee, Some (Collab err))
      | None => mret (employee, None)
      end
  end.

(** [func (c *Client) GetEmployeeByEmail(ctx context.Context,
    email string, fields ...EmployeeField) (Employee, error)] *)
Definition GetEmployeeByEmail (c : Client) (ctx : Ctx) (email : string)
    (fields : list EmployeeField) : M (Employee.t * option error) :=
  let id := "" in
  let employee := Employee.zero in
  '(directory, err) ← GetEmployeeDirectory c ctx;
  match err with
  | Some err => mret (employee, Some err)
  | None =>
      let id := GetEmployeeByEmail_scan id directory email in
      if (String.length id =? 0)%nat
      then mret (employee, Some (errors_New "No employee found"))
      else GetEmployee c ctx id fields
  end.

End Operations.

(** ** JSON decoding of an [Employee] *)

Module json.

Inductive Value : Type :=
  | Null
  | Bool (b : bool)
  | Number (n : Z)
  | String (s : string)
  | Array (vs : list Value)
  | Object (members : list (string * Value)).

(** The string-valued attributes of an [Employee]. *)
Inductive StrField : Type :=
  | F_ID | F_DisplayName | F_FirstName | F_LastName | F_PreferredName
  | F_Gender | F_JobTitle | F_WorkPhone | F_MobilePhone | F_WorkEmail
  | F_Department | F_Location | F_Division | F_LinkedIn
  | F_WorkPhoneExtension | F_PhotoURL | F_HireDate.

Definition str_fields : list (string * StrField) :=
  [("ID", F_ID); (DisplayName, F_DisplayName); (FirstName, F_FirstName);
   (LastName, F_LastName); (PreferredName, F_PreferredName);
   (Gender, F_Gender); (JobTitle, F_JobTitle); (WorkPhone, F_WorkPhone);
   (MobilePhone, F_MobilePhone); (WorkEmail, F_WorkEmail);
   (Department, F_Department); (Location, F_Location);
   (Division, F_Division); (LinkedIn, F_LinkedIn);
   (WorkPhoneExtension, F_WorkPhoneExtension); (PhotoURL, F_PhotoURL);
   (HireDate, F_HireDate)].

Definition str_field_of_key (key : string) : option StrField :=
  snd <$> find (fun kf => String.eqb (fst kf) key) str_fields.

Definition set_str (f : StrField) (s : string) (e : Employee.t)
  : Employee.t :=
  {| Employee.ID := match f with F_ID => s | _ => Employee.ID e end;
     Employee.DisplayName :=
       match f with F_DisplayName => s | _ => Employee.DisplayName e end;
     Employee.FirstName :=
       match f with F_FirstName => s | _ => Employee.FirstName e end;
     Employee.LastName :=
       match f with F_LastName => s | _ => Employee.LastName e end;
     Employee.PreferredName :=
       match f with
       | F_PreferredName => s | _ => Employee.PreferredName e end;
     Employee.Gender :=
       match f with F_Gender => s | _ => Employee.Gender e end;
     Employee.JobTitle :=
       match f with F_JobTitle => s | _ => Employee.JobTitle e end;
     Employee.WorkPhone :=
       match f with F_WorkPhone => s | _ => Employee.WorkPhone e end;
     Employee.MobilePhone :=
       match f with F_MobilePhone => s | _ => Employee.MobilePhone e end;
     Employee.WorkEmail :=
       match f with F_WorkEmail => s | _ => Employee.WorkEmail e end;
     Employee.Department :=
       match f with F_Department => s | _ => Employee.Department e end;
     Employee.Location :=
       match f with F_Location => s | _ => Employee.Location e end;
     Employee.Division :=
       match f with F_Division => s | _ => Employee.Division e end;
     Employee.LinkedIn :=
       match f with F_LinkedIn => s | _ => Employee.LinkedIn e end;
     Employee.WorkPhoneExtension :=
       match f with
       | F_WorkPhoneExtension => s | _ => Employee.WorkPhoneExtension e end;
     Employee.PhotoUploaded := Employee.PhotoUploaded e;
     Employee.PhotoURL :=
       match f with F_PhotoURL => s | _ => Employee.PhotoURL e end;
     Employee.CanUploadPhoto := Employee.CanUploadPhoto e;
     Employee.HireDate :=
       match f with F_HireDate => s | _ => Employee.HireDate e end |}.

Definition set_PhotoUploaded (p : option bool) (e : Employee.t)
  : Employee.t :=
  Employee.mk (Employee.ID e) (Employee.DisplayName e)
    (Employee.FirstName e) (Employee.LastName e)
    (Employee.PreferredName e) (Employee.Gender e) (Employee.JobTitle e)
    (Employee.WorkPhone e) (Employee.MobilePhone e)
    (Employee.WorkEmail e) (Employee.Department e) (Employee.Location e)
    (Employee.Division e) (Employee.LinkedIn e)
    (Employee.WorkPhoneExtension e) p (Employee.PhotoURL e)
    (Employee.CanUploadPhoto e) (Employee.HireDate e).

Definition set_CanUploadPhoto (p : option Z) (e : Employee.t)
  : Employee.t :=
  Employee.mk (Employee.ID e) (Employee.DisplayName e)
    (Employee.FirstName e) (Employee.LastName e)
    (Employee.PreferredName e) (Employee.Gender e) (Employee.JobTitle e)
    (Employee.WorkPhone e) (Employee.MobilePhone e)
    (Employee.WorkEmail e) (Employee.Department e) (Employee.Location e)
    (Employee.Division e) (Employee.LinkedIn e)
    (Employee.WorkPhoneExtension e) (Employee.PhotoUploaded e)
    (Employee.PhotoURL e) p (Employee.HireDate e).

(** Modelled from the spec: the decoding of one member of a JSON
    employee object, done by [makeRequest] outside employees.go.  The
    field tokens are the JSON keys, as exact strings; a string
    attribute takes a JSON string, [PhotoUploaded] a JSON boolean and
    [CanUploadPhoto] a JSON number; [null] leaves a string attribute
    as it is and makes an optional one absent; a key that names no
    attribute is skipped; any other shape is a decode error
    ([None]). *)
Definition decode_member (e : Employee.t) (m : string * Value)
  : option Employee.t :=
  let '(key, v) := m in
  if String.eqb key PhotoUploaded then
    match v with
    | Bool b => Some (set_PhotoUploaded (Some b) e)
    | Null => Some (set_PhotoUploaded None e)
    | _ => None
    end
  else if String.eqb key CanUploadPhoto then
    match v with
    | Number n => Some (set_CanUploadPhoto (Some n) e)
    | Null => Some (set_CanUploadPhoto None e)
    | _ => None
    end
  else
    match str_field_of_key key with
    | None => Some e
    | Some f =>
        match v with
        | String s => Some (set_str f s e)
        | Null => Some e
        | _ => None
        end
    end.

Fixpoint decode_members (e : Employee.t) (ms : list (string * Value))
  : option Employee.t :=
  match ms with
  | [] => Some e
  | m :: ms' =>
      match decode_member e m with
      | Some e' => decode_members e' ms'
      | None => None
      end
  end.

(** Modelled from the spec: the decoding of a JSON response body into
    the [Employee] it is handed (missing: [makeRequest] and the JSON
    decoder behind it).  Members are applied in order to the record;
    an attribute no member names keeps the value it had. *)
Definition decode_Employee (v : Value) (e : Employee.t)
  : option Employee.t :=
  match v with
  | Object ms => decode_members e ms
  | _ => None
  end.

End json.

(** ** A small service to run the operations against

    Contexts are numbered, collaborator errors are messages, a URL
    holding a control character does not parse and any other is cut at
    its first [?] into path and query, and the remote side is a fixed
    staff list that answers a given number of requests before it stops
    being reachable. *)
Module Service.

Record remote : Type := { staff : list Employee.t; budget : nat }.

Definition has_control (s : string) : bool :=
  existsb (fun a => (nat_of_ascii a <? 32)%nat || (nat_of_ascii a =? 127)%nat)
    (list_ascii_of_string s).

(** [strings.Cut(s, sep)] for a one-byte separator. *)
Fixpoint cut (sep : ascii) (s : string) : string * option string :=
  match s with
  | EmptyString => (EmptyString, None)
  | String a s' =>
      if Ascii.eqb a sep then (EmptyString, Some s')
      else let '(before, after) := cut sep s' in (String a before, after)
  end.

Fixpoint split (sep : ascii) (s : string) : list string :=
  match s with
  | EmptyString => [EmptyString]
  | String a s' =>
      if Ascii.eqb a sep then EmptyString :: split sep s'
      else match split sep s' with
           | [] => [String a EmptyString]
           | w :: ws => String a w :: ws
           end
  end.

(** The [key=value] segments between [&]s, in order, each value added
    under its key; no unescaping. *)
Definition parse_query (raw : string) : url.Values :=
  fold_left
    (fun v seg =>
       if String.eqb seg "" then v
       else let '(key, value) := cut "=" seg in
            url.Add v key (default "" value))
    (split "&" raw) ∅.

(** What precedes the first [?] is the path, what follows is the
    query. *)
Definition parse (s : string) : string + url.URL :=
  if has_control s
  then inl "net/url: invalid control character in URL"
  else
    let '(path, raw) := cut "?" s in
    inr {| url.Scheme := ""; url.Host := ""; url.Path := path;
           url.RawQuery := parse_query (default "" raw);
           url.Fragment := "" |}.

Definition serve (c : Client) (k : OutKind) (req : Request nat)
  : Out k -> remote -> (Out k * option string) * remote :=
  match k with
  | OutEmployeeResponse => fun v w =>
      match budget w with
      | O => (v, Some "connection refused", w)
      | S n =>
          ({| Employees := staff w |}, None,
           {| staff := staff w; budget := n |})
      end
  | OutEmployee => fun v w =>
      match budget w with
      | O => (v, Some "connection refused", w)
      | S n =>
          let w := {| staff := staff w; budget := n |} in
          match
            find (fun e =>
                    String.eqb (url.Path (URL req))
                      (BaseURL c +:+ "/employees/" +:+ Employee.ID e))
                 (staff w)
          with
          | Some e => (e, None, w)
          | None => (v, Some "404 Not Found", w)
          end
      end
  end.

#[export] Instance env : Env := {|
  Ctx := nat;
  Background := 0;
  TODO := 1;
  ExtErr := string;
  World := remote;
  url_Parse := parse;
  Client_makeRequest := serve
|}.

Definition client : Client := {| BaseURL := "https://hr.example/v1" |}.

(** A client whose base URL ends in the control character DEL. *)
Definition bad_client : Client :=
  {| BaseURL := "https://hr.example/v1" +:+ String "127"%char EmptyString |}.

Definition entry (id email : string) : Employee.t :=
  json.set_str json.F_WorkEmail email
    (json.set_str json.F_ID id Employee.zero).

(** The service with [n] answers left and nothing sent yet. *)
Definition start (n : nat) (staff : list Employee.t) : State :=
  {| world := {| staff := staff; budget := n |}; issued := [] |}.

(** What a request looks like to an observer: method, URL text, the
    value of its [fields] parameter, and context. *)
Definition view (req : Request nat) : string * string * string * nat :=
  (Method req, url.Path (URL req),
   url.Get (url.RawQuery (URL req)) "fields", ctx req).

End Service.

(** ** Vocabulary of the specification *)

(** What follows the first token in a joined string. *)
Definition Join_tail (sep : string) (rest : EmployeeFields) : string :=
  fold_right (fun s acc => sep +:+ s +:+ acc) "" rest.

(** The sum of the lengths of the tokens. *)
Definition tokens_length (ef : EmployeeFields) : nat :=
  list_sum (map String.length ef).

(** [occurs t s]: the bytes of [t] appear consecutively somewhere in
    [s]. *)
Fixpoint occurs (t s : string) : bool :=
  String.prefix t s
  || match s with
     | EmptyString => false
     | String _ s' => occurs t s'
     end.

(** [e] is the first entry of [directory] whose work e-mail is [email],
    byte for byte. *)
Definition first_match (email : string) (directory : list Employee.t)
    (e : Employee.t) : Prop :=
  ∃ before after : list Employee.t,
    directory = (before ++ e :: after)%list
    ∧ Forall (fun x => Employee.WorkEmail x ≠ email) before
    ∧ Employee.WorkEmail e = email.

(** No entry of [directory] has work e-mail [email]. *)
Definition no_match (email : string) (directory : list Employee.t) : Prop :=
  Forall (fun x => Employee.WorkEmail x ≠ email) directory.

(** The default field list, joined by commas, as a literal. *)
Definition default_fields_joined : string :=
  "DisplayName,FirstName,LastName,PreferredName,Gender,JobTitle,WorkPhone,MobilePhone,WorkEmail,Department,Location,Division,LinkedIn,WorkPhoneExtension,PhotoUploaded,PhotoURL,CanUploadPhoto,HireDate".

(** The error [GetEmployeeByEmail] builds when its scan leaves [id]
    empty. *)
Definition NotFoundError {env : Env} : error :=
  errors_New "No employee found".

(** The field set [GetEmployee] joins: the caller's fields in the
    caller's order, or the default list when there are none. *)
Definition requested (fields : list EmployeeField) : EmployeeFields :=
  match fields with
  | [] => default_fields
  | _ :: _ => fields
  end.

(** The requests a computation sends when run from state [s]: what it
    appends to the record of requests. *)
Definition sent {env : Env} {A : Type} (m : M A) (s : State)
  : list (Request Ctx) :=
  drop (length (issued s)) (issued (m s).2).

(** No member of a JSON object has the key [key]. *)
Definition lacks (key : string) (ms : list (string * json.Value)) : Prop :=
  Forall (fun m => m.1 ≠ key) ms.

(** The byte [a] occurs in [s]. *)
Definition has_byte (a : ascii) (s : string) : bool :=
  existsb (Ascii.eqb a) (list_ascii_of_string s).


(** The request [GetEmployeeDirectory] builds from a parsed URL. *)
Definition directory_request {env : Env} (u : url.URL) (cx : Ctx)
  : Request Ctx :=
  {| Method := "GET"; URL := u; ctx := cx |}.

(** The request [GetEmployee] builds from a parsed URL. *)
Definition employee_request {env : Env} (u : url.URL) (cx : Ctx)
    (fields : list EmployeeField) : Request Ctx :=
  {| Method := "GET";
     URL := url.set_RawQuery u
              (url.Add (url.Query u) "fields" (Join (requested fields) ","));
     ctx := cx |}.

(** * Properties *)

(** ** Strings *)

Lemma string_app_cons (a : ascii) (s t : string) :
  String a s +:+ t = String a (s +:+ t).
Proof. reflexivity. Qed.

Lemma string_app_nil_r (s : string) : s +:+ "" = s.
Proof.
  induction s as [|a s IH]; [reflexivity|].
  now rewrite string_app_cons, IH.
Qed.

Lemma string_app_assoc (s t u : string) : (s +:+ t) +:+ u = s +:+ t +:+ u.
Proof.
  induction s as [|a s IH]; [reflexivity|].
  now rewrite !string_app_cons, IH.
Qed.

Lemma string_app_length (s t : string) :
  String.length (s +:+ t) = String.length s + String.length t.
Proof.
  induction s as [|a s IH]; [reflexivity|].
  rewrite string_app_cons. simpl. now rewrite IH.
Qed.

(** ** Field set: [Join] *)

Lemma Grow_buf (b : Builder.t) (n : nat) :
  Builder.buf (Builder.Grow b n) = Builder.buf b.
Proof. unfold Builder.Grow. now destruct (_ <? _)%nat. Qed.

Lemma Join_loop_buf (sep : string) (rest : EmployeeFields) (b : Builder.t) :
  Builder.buf
    (fold_left (fun b s => Builder.WriteString (Builder.WriteString b sep) s)
       rest b)
  = Builder.buf b +:+ Join_tail sep rest.
Proof.
  revert b. induction rest as [|s rest IH]; intros b; simpl.
  - now rewrite string_app_nil_r.
  - rewrite IH. simpl. now rewrite !string_app_assoc.
Qed.

Lemma Join_builder_buf (ef0 : EmployeeField) (rest : EmployeeFields)
    (sep : string) :
  Builder.buf (Join_builder (ef0 :: rest) sep) = ef0 +:+ Join_tail sep rest.
Proof.
  unfold Join_builder. rewrite Join_loop_buf. simpl.
  now rewrite Grow_buf.
Qed.

Lemma Join_cons (ef0 : EmployeeField) (rest : EmployeeFields) (sep : string) :
  Join (ef0 :: rest) sep = ef0 +:+ Join_tail sep rest.
Proof.
  destruct rest as [|ef1 rest].
  - simpl. now rewrite string_app_nil_r.
  - unfold Join, Builder.String. apply Join_builder_buf.
Qed.

Lemma Join_cons_cons (ef0 ef1 : EmployeeField) (rest : EmployeeFields)
    (sep : string) :
  Join (ef0 :: ef1 :: rest) sep = ef0 +:+ sep +:+ Join (ef1 :: rest) sep.
Proof. now rewrite !Join_cons. Qed.

Lemma concat_Join_tail (sep : string) (rest : EmployeeFields) :
  ∀ ef0 : EmployeeField,
    String.concat sep (ef0 :: rest) = ef0 +:+ Join_tail sep rest.
Proof.
  induction rest as [|ef1 rest IH]; intros ef0.
  - simpl. now rewrite string_app_nil_r.
  - change (String.concat sep (ef0 :: ef1 :: rest))
      with (ef0 +:+ sep +:+ String.concat sep (ef1 :: rest)).
    now rewrite IH.
Qed.

Lemma Join_concat (ef : EmployeeFields) (sep : string) :
  Join ef sep = String.concat sep ef.
Proof.
  destruct ef as [|ef0 rest]; [reflexivity|].
  now rewrite Join_cons, concat_Join_tail.
Qed.

(** C4.  [Join] is a total function from a field set and a separator to
    a string (no error result, no state): the empty set gives the empty
    string, a single token is returned as it is, and two or more tokens
    give the tokens in order with the separator between each
    consecutive pair, which is [String.concat] of the separator and the
    tokens. *)
Theorem Join_spec (sep : string) :
  Join [] sep = ""
  ∧ (∀ ef0 : EmployeeField, Join [ef0] sep = ef0)
  ∧ (∀ (ef0 ef1 : EmployeeField) (rest : EmployeeFields),
       Join (ef0 :: ef1 :: rest) sep
       = ef0 +:+ sep +:+ Join (ef1 :: rest) sep)
  ∧ (∀ ef : EmployeeFields, Join ef sep = String.concat sep ef).
Proof.
  split; [reflexivity|]. split; [reflexivity|].
  split; [intros; apply Join_cons_cons | intros ef; apply Join_concat].
Qed.

Example Join_nil : Join [] "," = "".
Proof. reflexivity. Qed.

Example Join_one : Join ["A"] "," = "A".
Proof. reflexivity. Qed.

Example Join_three : Join ["A"; "B"; "C"] "," = "A,B,C".
Proof. reflexivity. Qed.

Lemma Join_tail_length (sep : string) (rest : EmployeeFields) :
  String.length (Join_tail sep rest)
  = tokens_length rest + length rest * String.length sep.
Proof.
  unfold tokens_length.
  induction rest as [|s rest IH]; [reflexivity|].
  simpl. rewrite !string_app_length, IH. lia.
Qed.



Lemma Join_length_cons (ef0 : EmployeeField) (rest : EmployeeFields)
    (sep : string) :
  String.length (Join (ef0 :: rest) sep)
  = tokens_length (ef0 :: rest)
    + (length (ef0 :: rest) - 1) * String.length sep.
Proof.
  rewrite Join_cons, string_app_length, Join_tail_length.
  unfold tokens_length. simpl. lia.
Qed.

(** C8.  The joined string of an empty field set has length zero; that
    of a field set with at least one token is as long as its tokens
    together plus one separator for every token but the first. *)
Theorem Join_length (sep : string) :
  String.length (Join [] sep) = 0
  ∧ (∀ (ef0 : EmployeeField) (rest : EmployeeFields),
       String.length (Join (ef0 :: rest) sep)
       = tokens_length (ef0 :: rest)
         + (length (ef0 :: rest) - 1) * String.length sep).
Proof. split; [reflexivity | intros; apply Join_length_cons]. Qed.




(** ** The linear scans *)

Lemma first_match_or_none (email : string) (directory : list Employee.t) :
  no_match email directory ∨ ∃ e, first_match email directory e.
Proof.
  induction directory as [|x directory IH].
  - left. constructor.
  - destruct (String.eqb_spec (Employee.WorkEmail x) email) as [Heq|Hne].
    + right. exists x, [], directory. repeat split; [constructor | exact Heq].
    + destruct IH as [Hnone | (e & before & after & -> & Hb & He)].
      * left. now constructor.
      * right. exists e, (x :: before), after.
        repeat split; [now constructor | exact He].
Qed.

Lemma first_match_not_none (email : string) (directory : list Employee.t)
    (e : Employee.t) :
  first_match email directory e → ¬ no_match email directory.
Proof.
  intros (before & after & -> & _ & He) Hnone.
  apply Forall_app in Hnone as [_ Hnone].
  apply Forall_cons_iff in Hnone as [Hne _]. contradiction.
Qed.

Lemma first_match_unique (email : string) (directory : list Employee.t)
    (e e' : Employee.t) :
  first_match email directory e → first_match email directory e' → e = e'.
Proof.
  intros (b & a & -> & Hb & He) (b' & a' & Heq & Hb' & He').
  revert b' Heq Hb'. induction Hb as [|x b Hx Hb IH]; intros b' Heq Hb'.
  - destruct b' as [|y b']; simpl in Heq.
    + now injection Heq.
    + injection Heq as -> _. apply Forall_cons_iff in Hb' as [Hy _].
      contradiction.
  - destruct b' as [|y b']; simpl in Heq.
    + injection Heq as <- _. contradiction.
    + injection Heq as _ Heq. apply Forall_cons_iff in Hb' as [_ Hb'].
      now apply (IH b').
Qed.

Section Scans.
Context {env : Env}.

Lemma GetEmployeeIDByEmail_scan_first (email : string)
    (directory : list Employee.t) (e : Employee.t) :
  first_match email directory e →
  GetEmployeeIDByEmail_scan directory email = (Employee.ID e, None).
Proof.
  intros (before & after & -> & Hb & He).
  induction Hb as [|x before Hx Hb IH]; simpl.
  - apply String.eqb_eq in He. now rewrite He.
  - apply String.eqb_neq in Hx. now rewrite Hx.
Qed.

Lemma GetEmployeeIDByEmail_scan_none (email : string)
    (directory : list Employee.t) :
  no_match email directory →
  GetEmployeeIDByEmail_scan directory email = ("", None).
Proof.
  induction 1 as [|x directory Hx Hd IH]; simpl; [reflexivity|].
  apply String.eqb_neq in Hx. now rewrite Hx.
Qed.

Lemma GetEmployeeByEmail_scan_first (id email : string)
    (directory : list Employee.t) (e : Employee.t) :
  first_match email directory e →
  GetEmployeeByEmail_scan id directory email = Employee.ID e.
Proof.
  intros (before & after & -> & Hb & He).
  induction Hb as [|x before Hx Hb IH]; simpl.
  - apply String.eqb_eq in He. now rewrite He.
  - apply String.eqb_neq in Hx. now rewrite Hx.
Qed.

Lemma GetEmployeeByEmail_scan_none (id email : string)
    (directory : list Employee.t) :
  no_match email directory →
  GetEmployeeByEmail_scan id directory email = id.
Proof.
  induction 1 as [|x directory Hx Hd IH]; simpl; [reflexivity|].
  apply String.eqb_neq in Hx. now rewrite Hx.
Qed.

End Scans.

Lemma length_zero_empty (s : string) :
  (String.length s =? 0)%nat = true ↔ s = "".
Proof.
  destruct s; simpl; split; intros Hs; try reflexivity; discriminate.
Qed.

(** ** The client operations *)

Section Client.
Context {env : Env}.
Implicit Types (c : Client) (s : State) (email id : string)
  (directory : list Employee.t) (fields : list EmployeeField).

(** Running a bind: the second computation starts in the state the
    first one ends in. *)
Lemma run_bind {A B : Type} (m : M A) (f : A → M B) s a s' :
  m s = (a, s') → (m ≫= f) s = f a s'.
Proof. intros Hm. unfold mbind, M_bind. now rewrite Hm. Qed.

(** *** [GetEmployeeDirectory] *)

Lemma GetEmployeeDirectory_bad_url c (cx : Ctx) s (err : ExtErr) :
  url_Parse (BaseURL c +:+ "/employees/directory") = inl err →
  GetEmployeeDirectory c cx s = (([], Some (Collab err)), s).
Proof.
  intros Hp. unfold GetEmployeeDirectory, NewRequest. now rewrite Hp.
Qed.

(** C6, as the code has it.  When the URL
    [{baseURL}/employees/directory] parses,
    [GetEmployeeDirectory] sends exactly one request: method [GET],
    that URL with the query it parsed to (nothing is added to it),
    under the caller's context.  When [makeRequest] reports no error
    the result is the [Employees] slice of the decoded response, with
    no error; otherwise it is the nil slice with [makeRequest]'s
    error. *)
Theorem GetEmployeeDirectory_request c (cx : Ctx) s (u : url.URL) :
  url_Parse (BaseURL c +:+ "/employees/directory") = inr u →
  let req := {| Method := "GET"; URL := u; ctx := cx |} in
  let '(er, err, w) :=
    Client_makeRequest c OutEmployeeResponse req {| Employees := [] |}
      (world s) in
  GetEmployeeDirectory c cx s
  = ((match err with Some _ => [] | None => Employees er end,
      Collab <$> err),
     {| world := w; issued := (issued s ++ [req])%list |}).
Proof.
  intros Hp req.
  unfold GetEmployeeDirectory, NewRequest. rewrite Hp.
  unfold mbind, M_bind, makeRequest, WithContext. simpl. fold req.
  destruct (Client_makeRequest c OutEmployeeResponse req _ (world s))
    as [[er [err|]] w]; reflexivity.
Qed.

(** A successful directory fetch has sent exactly one request. *)
Lemma GetEmployeeDirectory_ok_issued c (cx : Ctx) s directory s' :
  GetEmployeeDirectory c cx s = ((directory, None), s') →
  ∃ req : Request Ctx, issued s' = (issued s ++ [req])%list.
Proof.
  unfold GetEmployeeDirectory.
  destruct (NewRequest "GET" _) as [err|req]; [discriminate|].
  unfold mbind, M_bind, makeRequest.
  destruct (Client_makeRequest c OutEmployeeResponse _ _ (world s))
    as [[er [e|]] w]; simpl; [discriminate|].
  intros [= _ <-]. simpl. eauto.
Qed.

(** *** [GetEmployeeIDByEmail] *)

(** After a successful directory fetch, [GetEmployeeIDByEmail] is its
    scan of the directory, in the state the fetch left. *)
Lemma GetEmployeeIDByEmail_run c email s directory s' :
  GetEmployeeDirectory c TODO s = ((directory, None), s') →
  GetEmployeeIDByEmail c email s
  = (GetEmployeeIDByEmail_scan directory email, s').
Proof.
  intros Hdir. unfold GetEmployeeIDByEmail.
  now rewrite (run_bind _ _ _ _ _ Hdir).
Qed.

(** C1.  Given the directory that [GetEmployeeDirectory] returns, the
    result of [GetEmployeeIDByEmail] is the [ID] of the first entry
    whose [WorkEmail] equals the e-mail byte for byte, with no error,
    and the empty string with no error when no entry matches. *)
Theorem GetEmployeeIDByEmail_first_match c email s directory s' :
  GetEmployeeDirectory c TODO s = ((directory, None), s') →
  (∀ e, first_match email directory e →
        GetEmployeeIDByEmail c email s = ((Employee.ID e, None), s'))
  ∧ (no_match email directory →
     GetEmployeeIDByEmail c email s = (("", None), s')).
Proof.
  intros Hdir. rewrite (GetEmployeeIDByEmail_run _ _ _ _ _ Hdir).
  split.
  - intros e He. now rewrite (GetEmployeeIDByEmail_scan_first _ _ _ He).
  - intros Hnone. now rewrite (GetEmployeeIDByEmail_scan_none _ _ Hnone).
Qed.

(** *** [GetEmployee] *)

Lemma append_all_app (ef : EmployeeFields) fields :
  append_all ef fields = (ef ++ fields)%list.
Proof.
  unfold append_all. revert ef.
  induction fields as [|f fields IH]; intros ef; simpl.
  - now rewrite app_nil_r.
  - rewrite IH. now rewrite <- app_assoc.
Qed.

Lemma GetEmployee_bad_url c (cx : Ctx) id fields s (err : ExtErr) :
  url_Parse (BaseURL c +:+ "/employees/" +:+ id) = inl err →
  GetEmployee c cx id fields s = ((Employee.zero, Some (Collab err)), s).
Proof.
  intros Hp. unfold GetEmployee, NewRequest. now rewrite Hp.
Qed.

(** The one request [GetEmployee] sends, and its result. *)
Lemma GetEmployee_run c (cx : Ctx) id fields s (u : url.URL) :
  url_Parse (BaseURL c +:+ "/employees/" +:+ id) = inr u →
  let q := url.Add (url.Query u) "fields" (Join (requested fields) ",") in
  let req := {| Method := "GET"; URL := url.set_RawQuery u q; ctx := cx |} in
  let '(employee, err, w) :=
    Client_makeRequest c OutEmployee req Employee.zero (world s) in
  GetEmployee c cx id fields s
  = ((employee, Collab <$> err),
     {| world := w; issued := (issued s ++ [req])%list |}).
Proof.
  intros Hp q req.
  unfold GetEmployee, NewRequest. rewrite Hp.
  assert (Hef : (if (0 <? length fields)%nat
                 then append_all [] fields else default_fields)
                = requested fields).
  { destruct fields; simpl; [reflexivity|]. now rewrite append_all_app. }
  rewrite Hef.
  unfold mbind, M_bind, makeRequest, WithContext, set_URL_RawQuery.
  simpl. fold q. fold req.
  destruct (Client_makeRequest c OutEmployee req _ (world s))
    as [[employee [err|]] w]; reflexivity.
Qed.

(** The error of [GetEmployee], if any, comes from a collaborator. *)
Lemma GetEmployee_error c (cx : Ctx) id fields s (err : error) :
  (GetEmployee c cx id fields s).1.2 = Some err →
  ∃ e : ExtErr, err = Collab e.
Proof.
  destruct (url_Parse (BaseURL c +:+ "/employees/" +:+ id))
    as [e|u] eqn:Hp.
  - rewrite (GetEmployee_bad_url _ _ _ _ _ _ Hp). simpl.
    intros [= <-]. eauto.
  - pose proof (GetEmployee_run c cx id fields s u Hp) as Hrun.
    simpl in Hrun.
    destruct (Client_makeRequest c OutEmployee _ _ (world s))
      as [[employee [e|]] w]; rewrite Hrun; simpl.
    + intros [= <-]. eauto.
    + discriminate.
Qed.

Lemma GetEmployee_sent c (cx : Ctx) id fields s (u : url.URL) :
  url_Parse (BaseURL c +:+ "/employees/" +:+ id) = inr u →
  sent (GetEmployee c cx id fields) s
  = [ {| Method := "GET";
         URL := url.set_RawQuery u
                  (url.Add (url.Query u) "fields"
                     (Join (requested fields) ","));
         ctx := cx |} ].
Proof.
  intros Hp. unfold sent.
  pose proof (GetEmployee_run c cx id fields s u Hp) as Hrun.
  simpl in Hrun.
  destruct (Client_makeRequest c OutEmployee _ _ (world s))
    as [[employee err] w].
  rewrite Hrun. simpl. now rewrite drop_app_length.
Qed.

Lemma Add_lookup (q : url.Values) (key value : string) :
  url.Add q key value !! key
  = Some (default [] (q !! key) ++ [value])%list.
Proof. unfold url.Add. apply lookup_insert_eq. Qed.

Lemma Add_fresh (q : url.Values) (key value : string) :
  q !! key = None →
  url.Add q key value !! key = Some [value]
  ∧ url.Get (url.Add q key value) key = value.
Proof.
  intros Hq. unfold url.Get, url.Add.
  rewrite lookup_insert_eq, Hq. split; reflexivity.
Qed.

Lemma default_fields_Join : Join default_fields "," = default_fields_joined.
Proof. reflexivity. Qed.

(** C3, as the code has it.  With no fields named, and a URL
    [{baseURL}/employees/{id}] that parses, [GetEmployee] sends one
    [GET] request whose [fields] query parameter ends with the value
    [DisplayName,FirstName,...,HireDate]: the eighteen default tokens in
    the documented order joined by commas, added after whatever values
    the URL itself carries under [fields].  When the URL carries none,
    that is the parameter's only value.  [ReportingTo] is not one of the
    tokens, and its text occurs nowhere in the value. *)
Theorem GetEmployee_default_fields c (cx : Ctx) id s (u : url.URL) :
  url_Parse (BaseURL c +:+ "/employees/" +:+ id) = inr u →
  let q := url.Add (url.Query u) "fields" default_fields_joined in
  sent (GetEmployee c cx id []) s
  = [ {| Method := "GET"; URL := url.set_RawQuery u q; ctx := cx |} ]
  ∧ q !! "fields"
    = Some (default [] (url.Query u !! "fields") ++ [default_fields_joined])%list
  ∧ (url.Query u !! "fields" = None →
     q !! "fields" = Some [default_fields_joined]
     ∧ url.Get q "fields" = default_fields_joined)
  ∧ default_fields_joined
    = Join [DisplayName; FirstName; LastName; PreferredName; Gender;
            JobTitle; WorkPhone; MobilePhone; WorkEmail; Department;
            Location; Division; LinkedIn; WorkPhoneExtension;
            PhotoUploaded; PhotoURL; CanUploadPhoto; HireDate] ","
  ∧ ¬ In ReportingTo (requested [])
  ∧ occurs ReportingTo default_fields_joined = false.
Proof.
  intros Hp q.
  split; [exact (GetEmployee_sent c cx id [] s u Hp)|].
  split; [apply Add_lookup|].
  split; [apply Add_fresh|].
  split; [reflexivity|]. split; [|reflexivity].
  simpl. unfold ReportingTo. intros Hin.
  repeat (destruct Hin as [Hin|Hin]; [discriminate Hin|]).
  exact Hin.
Qed.

(** C5, as the code has it.  With a non-empty field list, and a URL
    [{baseURL}/employees/{id}] that parses, [GetEmployee] sends one
    [GET] request to that URL whose [fields] query parameter ends with
    the caller's fields, in the caller's order, joined by commas, added
    after whatever values the URL itself carries under [fields].  When
    the URL carries none, that is the parameter's only value; for
    [WorkEmail, JobTitle] it is [WorkEmail,JobTitle]. *)
Theorem GetEmployee_explicit_fields c (cx : Ctx) id fields s
    (u : url.URL) :
  fields ≠ [] →
  url_Parse (BaseURL c +:+ "/employees/" +:+ id) = inr u →
  let q := url.Add (url.Query u) "fields" (Join fields ",") in
  sent (GetEmployee c cx id fields) s
  = [ {| Method := "GET"; URL := url.set_RawQuery u q; ctx := cx |} ]
  ∧ q !! "fields"
    = Some (default [] (url.Query u !! "fields") ++ [Join fields ","])%list
  ∧ (url.Query u !! "fields" = None →
     q !! "fields" = Some [Join fields ","]
     ∧ url.Get q "fields" = Join fields ","
     ∧ (fields = [WorkEmail; JobTitle] →
        url.Get q "fields" = "WorkEmail,JobTitle")).
Proof.
  intros Hne Hp q.
  assert (Hreq : requested fields = fields) by now destruct fields.
  pose proof (GetEmployee_sent c cx id fields s u Hp) as Hsent.
  rewrite Hreq in Hsent.
  split; [exact Hsent|]. split; [apply Add_lookup|].
  intros Hq.
  destruct (Add_fresh (url.Query u) "fields" (Join fields ",") Hq)
    as [Hlookup Hget].
  repeat split; try assumption.
  intros ->. exact Hget.
Qed.

(** *** [GetEmployeeByEmail] *)

(** After a successful directory fetch, [GetEmployeeByEmail] is
    decided by the identifier its scan leaves in [id]. *)
Lemma GetEmployeeByEmail_run c (cx : Ctx) email fields s directory s' :
  GetEmployeeDirectory c cx s = ((directory, None), s') →
  GetEmployeeByEmail c cx email fields s
  = let id := GetEmployeeByEmail_scan "" directory email in
    if (String.length id =? 0)%nat
    then ((Employee.zero, Some NotFoundError), s')
    else GetEmployee c cx id fields s'.
Proof.
  intros Hdir. unfold GetEmployeeByEmail.
  rewrite (run_bind _ _ _ _ _ Hdir). simpl.
  now destruct (String.length _ =? 0)%nat.
Qed.

Lemma GetEmployeeByEmail_no_match c (cx : Ctx) email fields s directory s' :
  GetEmployeeDirectory c cx s = ((directory, None), s') →
  no_match email directory →
  GetEmployeeByEmail c cx email fields s
  = ((Employee.zero, Some NotFoundError), s').
Proof.
  intros Hdir Hnone.
  rewrite (GetEmployeeByEmail_run _ _ _ _ _ _ _ Hdir). simpl.
  now rewrite (GetEmployeeByEmail_scan_none _ _ _ Hnone).
Qed.

Lemma GetEmployeeByEmail_empty_id c (cx : Ctx) email fields s directory s'
    (e : Employee.t) :
  GetEmployeeDirectory c cx s = ((directory, None), s') →
  first_match email directory e →
  Employee.ID e = "" →
  GetEmployeeByEmail c cx email fields s
  = ((Employee.zero, Some NotFoundError), s').
Proof.
  intros Hdir He Hid.
  rewrite (GetEmployeeByEmail_run _ _ _ _ _ _ _ Hdir). simpl.
  now rewrite (GetEmployeeByEmail_scan_first _ _ _ _ He), Hid.
Qed.

Lemma GetEmployeeByEmail_delegates c (cx : Ctx) email fields s directory s'
    (e : Employee.t) :
  GetEmployeeDirectory c cx s = ((directory, None), s') →
  first_match email directory e →
  Employee.ID e ≠ "" →
  GetEmployeeByEmail c cx email fields s
  = GetEmployee c cx (Employee.ID e) fields s'.
Proof.
  intros Hdir He Hid.
  rewrite (GetEmployeeByEmail_run _ _ _ _ _ _ _ Hdir). simpl.
  rewrite (GetEmployeeByEmail_scan_first _ _ _ _ He).
  destruct (String.length (Employee.ID e) =? 0)%nat eqn:Hlen;
    [|reflexivity].
  apply length_zero_empty in Hlen. contradiction.
Qed.

(** C2, as the code has it.  After a successful directory fetch,
    [GetEmployeeByEmail] fails with the error "No employee found"
    exactly when no entry's [WorkEmail] equals the e-mail or the first
    entry that does has an empty [ID]; when the first matching entry
    has a non-empty [ID], the call is [GetEmployee] with that [ID] and
    the caller's fields, run after the directory fetch, and returns
    what it returns. *)
Theorem GetEmployeeByEmail_not_found_iff c (cx : Ctx) email fields s
    directory s' :
  GetEmployeeDirectory c cx s = ((directory, None), s') →
  ((GetEmployeeByEmail c cx email fields s).1.2 = Some NotFoundError
   ↔ (no_match email directory
      ∨ ∃ e, first_match email directory e ∧ Employee.ID e = ""))
  ∧ (∀ e, first_match email directory e → Employee.ID e ≠ "" →
          GetEmployeeByEmail c cx email fields s
          = GetEmployee c cx (Employee.ID e) fields s').
Proof.
  intros Hdir. split.
  - destruct (first_match_or_none email directory) as [Hnone|[e He]].
    + rewrite (GetEmployeeByEmail_no_match _ _ _ _ _ _ _ Hdir Hnone).
      simpl. split; [now left | reflexivity].
    + destruct (String.eqb_spec (Employee.ID e) "") as [Hid|Hid].
      * rewrite (GetEmployeeByEmail_empty_id _ _ _ _ _ _ _ _ Hdir He Hid).
        simpl. split; [right; eauto | reflexivity].
      * rewrite (GetEmployeeByEmail_delegates _ _ _ _ _ _ _ _ Hdir He Hid).
        split.
        -- intros Herr. apply GetEmployee_error in Herr as [x Hx].
           discriminate Hx.
        -- intros [Hnone|(e' & He' & Hid')].
           ++ now apply first_match_not_none in He.
           ++ rewrite (first_match_unique _ _ _ _ He He') in Hid.
              contradiction.
  - intros e He Hid.
    exact (GetEmployeeByEmail_delegates _ _ _ _ _ _ _ _ Hdir He Hid).
Qed.

(** C10.  When the first entry whose [WorkEmail] equals the e-mail has
    an empty [ID], [GetEmployeeByEmail] returns the zero employee and
    the error "No employee found" in the state the directory fetch
    left, so exactly one request has been sent and none follows it;
    [GetEmployeeIDByEmail] returns the empty string and no error.
    Both are what the same calls return when the directory fetched
    holds no matching entry at all. *)
Theorem empty_id_is_no_match c (cx : Ctx) email fields directory
    (e : Employee.t) :
  first_match email directory e →
  Employee.ID e = "" →
  (∀ s s', GetEmployeeDirectory c cx s = ((directory, None), s') →
     GetEmployeeByEmail c cx email fields s
     = ((Employee.zero, Some NotFoundError), s')
     ∧ (∃ req, sent (GetEmployeeByEmail c cx email fields) s = [req])
     ∧ (∀ s0 directory0,
          GetEmployeeDirectory c cx s0 = ((directory0, None), s') →
          no_match email directory0 →
          GetEmployeeByEmail c cx email fields s0
          = GetEmployeeByEmail c cx email fields s))
  ∧ (∀ s s', GetEmployeeDirectory c TODO s = ((directory, None), s') →
     GetEmployeeIDByEmail c email s = (("", None), s')
     ∧ (∀ s0 directory0,
          GetEmployeeDirectory c TODO s0 = ((directory0, None), s') →
          no_match email directory0 →
          GetEmployeeIDByEmail c email s0
          = GetEmployeeIDByEmail c email s)).
Proof.
  intros He Hid. split; intros s s' Hdir.
  - pose proof (GetEmployeeByEmail_empty_id _ _ _ fields _ _ _ _ Hdir He Hid)
      as Hrun.
    split; [exact Hrun|]. split.
    + destruct (GetEmployeeDirectory_ok_issued _ _ _ _ _ Hdir)
        as [req Hreq].
      exists req. unfold sent. rewrite Hrun. simpl.
      now rewrite Hreq, drop_app_length.
    + intros s0 directory0 Hdir0 Hnone.
      now rewrite Hrun,
        (GetEmployeeByEmail_no_match _ _ _ _ _ _ _ Hdir0 Hnone).
  - assert (Hrun : GetEmployeeIDByEmail c email s = (("", None), s')).
    { rewrite (GetEmployeeIDByEmail_run _ _ _ _ _ Hdir).
      now rewrite (GetEmployeeIDByEmail_scan_first _ _ _ He), Hid. }
    split; [exact Hrun|].
    intros s0 directory0 Hdir0 Hnone.
    rewrite Hrun, (GetEmployeeIDByEmail_run _ _ _ _ _ Hdir0).
    now rewrite (GetEmployeeIDByEmail_scan_none _ _ Hnone).
Qed.

(** C7.  An error of the directory fetch comes back from
    [GetEmployeeIDByEmail] (with the empty string) and from
    [GetEmployeeByEmail] (with the zero employee) as the same error
    value, in the state the fetch left; and an error of the delegated
    [GetEmployee] call comes back from [GetEmployeeByEmail] as the
    same error value, with whatever [GetEmployee] returned beside
    it. *)
Theorem errors_propagate_unchanged c (cx : Ctx) email fields s directory
    (err : error) s' :
  (GetEmployeeDirectory c TODO s = ((directory, Some err), s') →
   GetEmployeeIDByEmail c email s = (("", Some err), s'))
  ∧ (GetEmployeeDirectory c cx s = ((directory, Some err), s') →
     GetEmployeeByEmail c cx email fields s
     = ((Employee.zero, Some err), s'))
  ∧ (∀ (e employee : Employee.t) s'',
       GetEmployeeDirectory c cx s = ((directory, None), s') →
       first_match email directory e →
       Employee.ID e ≠ "" →
       GetEmployee c cx (Employee.ID e) fields s'
       = ((employee, Some err), s'') →
       GetEmployeeByEmail c cx email fields s
       = ((employee, Some err), s'')).
Proof.
  split; [|split].
  - intros Hdir. unfold GetEmployeeIDByEmail.
    now rewrite (run_bind _ _ _ _ _ Hdir).
  - intros Hdir. unfold GetEmployeeByEmail.
    now rewrite (run_bind _ _ _ _ _ Hdir).
  - intros e employee s'' Hdir He Hid Hget.
    now rewrite (GetEmployeeByEmail_delegates _ _ _ _ _ _ _ _ Hdir He Hid).
Qed.

End Client.

(** ** Optional attributes under JSON decoding *)

Lemma decode_member_keeps_PhotoUploaded (e e' : Employee.t)
    (m : string * json.Value) :
  m.1 ≠ PhotoUploaded →
  json.decode_member e m = Some e' →
  Employee.PhotoUploaded e' = Employee.PhotoUploaded e.
Proof.
  destruct m as [key v]. simpl. intros Hkey. unfold json.decode_member.
  apply String.eqb_neq in Hkey. rewrite Hkey.
  destruct (String.eqb key CanUploadPhoto).
  - destruct v; intros [= <-]; reflexivity.
  - destruct (json.str_field_of_key key) as [f|]; [|now intros [= <-]].
    destruct v; intros [= <-]; reflexivity.
Qed.

Lemma decode_member_keeps_CanUploadPhoto (e e' : Employee.t)
    (m : string * json.Value) :
  m.1 ≠ CanUploadPhoto →
  json.decode_member e m = Some e' →
  Employee.CanUploadPhoto e' = Employee.CanUploadPhoto e.
Proof.
  destruct m as [key v]. simpl. intros Hkey. unfold json.decode_member.
  apply String.eqb_neq in Hkey. rewrite Hkey.
  destruct (String.eqb key PhotoUploaded).
  - destruct v; intros [= <-]; reflexivity.
  - destruct (json.str_field_of_key key) as [f|]; [|now intros [= <-]].
    destruct v; intros [= <-]; reflexivity.
Qed.

Lemma decode_members_keeps (ms : list (string * json.Value)) :
  lacks PhotoUploaded ms → lacks CanUploadPhoto ms →
  ∀ e e' : Employee.t,
    json.decode_members e ms = Some e' →
    Employee.PhotoUploaded e' = Employee.PhotoUploaded e
    ∧ Employee.CanUploadPhoto e' = Employee.CanUploadPhoto e.
Proof.
  unfold lacks.
  induction ms as [|m ms IH]; intros Hp Hc e e'; simpl.
  - now intros [= <-].
  - apply Forall_cons_iff in Hp as [Hp Hps].
    apply Forall_cons_iff in Hc as [Hc Hcs].
    destruct (json.decode_member e m) as [e1|] eqn:Hm; [|discriminate].
    intros Hrest. destruct (IH Hps Hcs _ _ Hrest) as [-> ->].
    split; eauto using decode_member_keeps_PhotoUploaded,
                       decode_member_keeps_CanUploadPhoto.
Qed.

Lemma decode_members_app (ms ms' : list (string * json.Value))
    (e : Employee.t) :
  json.decode_members e (ms ++ ms')
  = json.decode_members e ms ≫= fun e1 => json.decode_members e1 ms'.
Proof.
  revert e. induction ms as [|m ms IH]; intros e; simpl; [reflexivity|].
  destruct (json.decode_member e m); [apply IH | reflexivity].
Qed.

(** C9.  An [Employee] decoded from a JSON object with neither a
    [PhotoUploaded] nor a [CanUploadPhoto] member has both attributes
    absent ([None]); decoded from the same object followed by
    [PhotoUploaded: false] and [CanUploadPhoto: 0] it has them present,
    as [false] and [0], and the two records differ in both
    attributes. *)
Theorem absent_is_not_zero (ms : list (string * json.Value))
    (e : Employee.t) :
  lacks PhotoUploaded ms →
  lacks CanUploadPhoto ms →
  json.decode_Employee (json.Object ms) Employee.zero = Some e →
  Employee.PhotoUploaded e = None
  ∧ Employee.CanUploadPhoto e = None
  ∧ ∃ e0,
      json.decode_Employee
        (json.Object
           (ms ++ [(PhotoUploaded, json.Bool false);
                   (CanUploadPhoto, json.Number 0)]))
        Employee.zero = Some e0
      ∧ Employee.PhotoUploaded e0 = Some false
      ∧ Employee.CanUploadPhoto e0 = Some 0%Z
      ∧ Employee.PhotoUploaded e0 ≠ Employee.PhotoUploaded e
      ∧ Employee.CanUploadPhoto e0 ≠ Employee.CanUploadPhoto e.
Proof.
  intros Hp Hc Hdec. simpl in Hdec.
  destruct (decode_members_keeps ms Hp Hc _ _ Hdec) as [HP HC].
  simpl in HP, HC. rewrite HP, HC.
  split; [reflexivity|]. split; [reflexivity|].
  eexists. simpl. rewrite decode_members_app, Hdec. simpl.
  split; [reflexivity|]. simpl. repeat split; discriminate.
Qed.

(** ** The operations on a concrete service *)

(** The scenario of the specification: the directory holds one entry,
    [ID] 7 with work e-mail a@x.com. *)
Example scenario_found :
  (GetEmployeeIDByEmail Service.client "a@x.com"
     (Service.start 2 [Service.entry "7" "a@x.com"])).1
  = ("7", None).
Proof. reflexivity. Qed.

Example scenario_missing :
  (GetEmployeeIDByEmail Service.client "missing@x.com"
     (Service.start 2 [Service.entry "7" "a@x.com"])).1
  = ("", None).
Proof. reflexivity. Qed.

(** The comparison is of bytes: a different case is no match. *)
Example scenario_case :
  (GetEmployeeIDByEmail Service.client "A@x.com"
     (Service.start 2 [Service.entry "7" "a@x.com"])).1
  = ("", None).
Proof. reflexivity. Qed.

Example scenario_explicit_fields :
  Service.view
    <$> sent (GetEmployee (env := Service.env) Service.client 2 "7"
               [WorkEmail; JobTitle])
          (Service.start 2 [Service.entry "7" "a@x.com"])
  = [("GET", "https://hr.example/v1/employees/7", "WorkEmail,JobTitle", 2)].
Proof. vm_compute. reflexivity. Qed.

Example scenario_by_email :
  (GetEmployeeByEmail (env := Service.env) Service.client 2 "a@x.com" []
     (Service.start 2 [Service.entry "7" "a@x.com"])).1
  = (Service.entry "7" "a@x.com", None).
Proof. vm_compute. reflexivity. Qed.

(** ** The theorems at concrete inputs *)

Lemma GetEmployeeIDByEmail_first_match_witness :
  GetEmployeeIDByEmail (env := Service.env) Service.client "a@x.com"
    (Service.start 1 [Service.entry "7" "a@x.com"; Service.entry "8" "a@x.com"])
  = (("7", None),
     (GetEmployeeDirectory (env := Service.env) Service.client TODO
        (Service.start 1
           [Service.entry "7" "a@x.com"; Service.entry "8" "a@x.com"])).2).
Proof.
  refine (proj1
            (GetEmployeeIDByEmail_first_match (env := Service.env)
               Service.client "a@x.com"
               (Service.start 1
                  [Service.entry "7" "a@x.com"; Service.entry "8" "a@x.com"])
               [Service.entry "7" "a@x.com"; Service.entry "8" "a@x.com"]
               _ eq_refl)
            (Service.entry "7" "a@x.com") _).
  exists [], [Service.entry "8" "a@x.com"].
  split; [reflexivity|]. split; [constructor | reflexivity].
Defined.

Lemma GetEmployeeByEmail_not_found_despite_match :
  GetEmployeeDirectory (env := Service.env) Service.client 2
    (Service.start 2 [Service.entry "" "a@x.com"])
  = (([Service.entry "" "a@x.com"], None),
     (GetEmployeeDirectory (env := Service.env) Service.client 2
        (Service.start 2 [Service.entry "" "a@x.com"])).2)
  ∧ (GetEmployeeByEmail (env := Service.env) Service.client 2 "a@x.com" []
       (Service.start 2 [Service.entry "" "a@x.com"])).1.2
    = Some NotFoundError
  ∧ ¬ no_match "a@x.com" [Service.entry "" "a@x.com"].
Proof.
  split; [reflexivity|]. split; [reflexivity|].
  intros Hnone. apply Forall_cons_iff in Hnone as [Hne _].
  now apply Hne.
Qed.

Lemma GetEmployeeByEmail_not_found_iff_witness :
  GetEmployeeByEmail (env := Service.env) Service.client 2 "a@x.com"
    [WorkEmail]
    (Service.start 2 [Service.entry "7" "a@x.com"])
  = GetEmployee (env := Service.env) Service.client 2 "7" [WorkEmail]
      (GetEmployeeDirectory (env := Service.env) Service.client 2
         (Service.start 2 [Service.entry "7" "a@x.com"])).2.
Proof.
  refine (proj2
            (GetEmployeeByEmail_not_found_iff (env := Service.env)
               Service.client 2 "a@x.com" [WorkEmail]
               (Service.start 2 [Service.entry "7" "a@x.com"])
               [Service.entry "7" "a@x.com"] _ eq_refl)
            (Service.entry "7" "a@x.com") _ _).
  - exists [], []. split; [reflexivity|]. split; [constructor | reflexivity].
  - discriminate.
Defined.

Lemma GetEmployee_default_fields_witness :
  Service.view
    <$> sent (GetEmployee (env := Service.env) Service.client 2 "7" [])
          (Service.start 2 [Service.entry "7" "a@x.com"])
  = [("GET", "https://hr.example/v1/employees/7", default_fields_joined, 2)].
Proof.
  destruct (GetEmployee_default_fields (env := Service.env) Service.client 2
              "7" (Service.start 2 [Service.entry "7" "a@x.com"])
              {| url.Scheme := ""; url.Host := "";
                 url.Path := "https://hr.example/v1/employees/7";
                 url.RawQuery := ∅; url.Fragment := "" |}
              eq_refl) as (Hsent & _ & Hfresh & _).
  destruct (Hfresh eq_refl) as [_ Hget].
  rewrite Hsent. simpl. unfold Service.view. simpl.
  unfold url.Query in Hget. simpl in Hget. now rewrite Hget.
Defined.

Lemma GetEmployee_explicit_fields_witness :
  Service.view
    <$> sent (GetEmployee (env := Service.env) Service.client 2 "7"
                [WorkEmail; JobTitle])
          (Service.start 2 [Service.entry "7" "a@x.com"])
  = [("GET", "https://hr.example/v1/employees/7", "WorkEmail,JobTitle", 2)].
Proof.
  destruct (GetEmployee_explicit_fields (env := Service.env) Service.client 2
              "7" [WorkEmail; JobTitle]
              (Service.start 2 [Service.entry "7" "a@x.com"])
              {| url.Scheme := ""; url.Host := "";
                 url.Path := "https://hr.example/v1/employees/7";
                 url.RawQuery := ∅; url.Fragment := "" |}
              ltac:(discriminate) eq_refl) as (Hsent & _ & Hfresh).
  destruct (Hfresh eq_refl) as (_ & _ & Hget).
  rewrite Hsent. simpl. unfold Service.view. simpl.
  unfold url.Query in Hget. simpl in Hget. now rewrite (Hget eq_refl).
Defined.

(** An identifier that carries a query of its own: the request then has
    two values under [fields], and the first is not the joined list. *)
Lemma GetEmployee_default_fields_after_own_query :
  (fun req => (url.RawQuery (URL req) !! "fields",
               url.Get (url.RawQuery (URL req)) "fields"))
    <$> sent (GetEmployee (env := Service.env) Service.client 2
                "7?fields=ID" [])
          (Service.start 2 [Service.entry "7" "a@x.com"])
  = [(Some ["ID"; default_fields_joined], "ID")]
  ∧ "ID" ≠ default_fields_joined.
Proof. split; [vm_compute; reflexivity | discriminate]. Qed.

Lemma GetEmployee_explicit_fields_after_own_query :
  (fun req => (url.RawQuery (URL req) !! "fields",
               url.Get (url.RawQuery (URL req)) "fields"))
    <$> sent (GetEmployee (env := Service.env) Service.client 2
                "7?fields=ID" [WorkEmail; JobTitle])
          (Service.start 2 [Service.entry "7" "a@x.com"])
  = [(Some ["ID"; "WorkEmail,JobTitle"], "ID")]
  ∧ "ID" ≠ Join [WorkEmail; JobTitle] ",".
Proof. split; [vm_compute; reflexivity | discriminate]. Qed.

(** A base URL that does not parse: the call returns the parser's error
    and sends nothing. *)
Lemma GetEmployeeDirectory_sends_nothing_on_bad_url :
  GetEmployeeDirectory (env := Service.env) Service.bad_client 2
    (Service.start 2 [Service.entry "7" "a@x.com"])
  = (([], Some (Collab (env := Service.env)
                  "net/url: invalid control character in URL")),
     Service.start 2 [Service.entry "7" "a@x.com"])
  ∧ sent (GetEmployeeDirectory (env := Service.env) Service.bad_client 2)
      (Service.start 2 [Service.entry "7" "a@x.com"])
    = [].
Proof. split; vm_compute; reflexivity. Qed.

Lemma GetEmployeeDirectory_request_witness :
  GetEmployeeDirectory (env := Service.env) Service.client 2
    (Service.start 2 [Service.entry "7" "a@x.com"])
  = (([Service.entry "7" "a@x.com"], None),
     @Build_State Service.env
       {| Service.staff := [Service.entry "7" "a@x.com"];
          Service.budget := 1 |}
       [ {| Method := "GET";
            URL := {| url.Scheme := ""; url.Host := "";
                      url.Path := "https://hr.example/v1/employees/directory";
                      url.RawQuery := ∅; url.Fragment := "" |};
            ctx := 2 |} ]).
Proof.
  exact (GetEmployeeDirectory_request (env := Service.env) Service.client 2
           (Service.start 2 [Service.entry "7" "a@x.com"])
           {| url.Scheme := ""; url.Host := "";
              url.Path := "https://hr.example/v1/employees/directory";
              url.RawQuery := ∅; url.Fragment := "" |}
           eq_refl).
Defined.

Lemma errors_propagate_unchanged_witness :
  GetEmployeeIDByEmail (env := Service.env) Service.client "a@x.com"
    (Service.start 0 [Service.entry "7" "a@x.com"])
  = (("", Some (Collab (env := Service.env) "connection refused")),
     (GetEmployeeDirectory (env := Service.env) Service.client TODO
        (Service.start 0 [Service.entry "7" "a@x.com"])).2)
  ∧ GetEmployeeByEmail (env := Service.env) Service.client 2 "a@x.com" []
      (Service.start 0 [Service.entry "7" "a@x.com"])
    = ((Employee.zero, Some (Collab (env := Service.env) "connection refused")),
       (GetEmployeeDirectory (env := Service.env) Service.client 2
          (Service.start 0 [Service.entry "7" "a@x.com"])).2)
  ∧ GetEmployeeByEmail (env := Service.env) Service.client 2 "a@x.com" []
      (Service.start 1 [Service.entry "7" "a@x.com"])
    = ((Employee.zero, Some (Collab (env := Service.env) "connection refused")),
       (GetEmployee (env := Service.env) Service.client 2 "7" []
          (GetEmployeeDirectory (env := Service.env) Service.client 2
             (Service.start 1 [Service.entry "7" "a@x.com"])).2).2).
Proof.
  split; [|split].
  - exact (proj1
             (errors_propagate_unchanged (env := Service.env) Service.client
                2 "a@x.com" []
                (Service.start 0 [Service.entry "7" "a@x.com"])
                [] (Collab (env := Service.env) "connection refused") _)
             eq_refl).
  - exact (proj1 (proj2
             (errors_propagate_unchanged (env := Service.env) Service.client
                2 "a@x.com" []
                (Service.start 0 [Service.entry "7" "a@x.com"])
                [] (Collab (env := Service.env) "connection refused") _))
             eq_refl).
  - refine (proj2 (proj2
              (errors_propagate_unchanged (env := Service.env) Service.client
                 2 "a@x.com" []
                 (Service.start 1 [Service.entry "7" "a@x.com"])
                 [Service.entry "7" "a@x.com"]
                 (Collab (env := Service.env) "connection refused") _))
              (Service.entry "7" "a@x.com") Employee.zero _ eq_refl _ _
              eq_refl).
    + exists [], []. split; [reflexivity|]. split; [constructor | reflexivity].
    + discriminate.
Defined.

Lemma absent_is_not_zero_witness :
  Employee.PhotoUploaded (Service.entry "7" "a@x.com") = None
  ∧ Employee.CanUploadPhoto (Service.entry "7" "a@x.com") = None
  ∧ ∃ e0,
      json.decode_Employee
        (json.Object
           [("ID", json.String "7"); (WorkEmail, json.String "a@x.com");
            (PhotoUploaded, json.Bool false);
            (CanUploadPhoto, json.Number 0)])
        Employee.zero = Some e0
      ∧ Employee.PhotoUploaded e0 = Some false
      ∧ Employee.CanUploadPhoto e0 = Some 0%Z
      ∧ Employee.PhotoUploaded e0
        ≠ Employee.PhotoUploaded (Service.entry "7" "a@x.com")
      ∧ Employee.CanUploadPhoto e0
        ≠ Employee.CanUploadPhoto (Service.entry "7" "a@x.com").
Proof.
  refine (absent_is_not_zero
            [("ID", json.String "7"); (WorkEmail, json.String "a@x.com")]
            (Service.entry "7" "a@x.com") _ _ eq_refl);
    unfold lacks; repeat constructor; discriminate.
Defined.

Lemma empty_id_is_no_match_witness :
  GetEmployeeByEmail (env := Service.env) Service.client 2 "a@x.com" []
    (Service.start 2 [Service.entry "" "a@x.com"; Service.entry "7" "a@x.com"])
  = ((Employee.zero, Some NotFoundError),
     (GetEmployeeDirectory (env := Service.env) Service.client 2
        (Service.start 2
           [Service.entry "" "a@x.com"; Service.entry "7" "a@x.com"])).2)
  ∧ GetEmployeeIDByEmail (env := Service.env) Service.client "a@x.com"
      (Service.start 2
         [Service.entry "" "a@x.com"; Service.entry "7" "a@x.com"])
    = (("", None),
       (GetEmployeeDirectory (env := Service.env) Service.client TODO
          (Service.start 2
             [Service.entry "" "a@x.com"; Service.entry "7" "a@x.com"])).2).
Proof.
  assert (He : first_match "a@x.com"
                 [Service.entry "" "a@x.com"; Service.entry "7" "a@x.com"]
                 (Service.entry "" "a@x.com")).
  { exists [], [Service.entry "7" "a@x.com"].
    split; [reflexivity|]. split; [constructor | reflexivity]. }
  destruct (empty_id_is_no_match (env := Service.env) Service.client 2
              "a@x.com" [] _ _ He eq_refl) as [Hby Hid].
  split.
  - exact (proj1
             (Hby (Service.start 2
                     [Service.entry "" "a@x.com"; Service.entry "7" "a@x.com"])
                _ eq_refl)).
  - exact (proj1
             (Hid (Service.start 2
                     [Service.entry "" "a@x.com"; Service.entry "7" "a@x.com"])
                _ eq_refl)).
Defined.


(** * Further properties of the code *)

(** ** [Join] *)

Lemma Join_tail_app (sep : string) (a b : EmployeeFields) :
  Join_tail sep (a ++ b)%list = Join_tail sep a +:+ Join_tail sep b.
Proof.
  induction a as [|x a IH]; simpl; [reflexivity|].
  now rewrite IH, !string_app_assoc.
Qed.

(** X1.  Joining a concatenation of two non-empty field sets is joining
    each and putting one separator between the two results. *)
Theorem Join_app (a b : EmployeeFields) (sep : string) :
  a ≠ [] → b ≠ [] →
  Join (a ++ b)%list sep = Join a sep +:+ sep +:+ Join b sep.
Proof.
  intros Ha Hb.
  destruct a as [|a0 a]; [contradiction|].
  destruct b as [|b0 b]; [contradiction|].
  change ((a0 :: a) ++ b0 :: b)%list with (a0 :: (a ++ b0 :: b))%list.
  rewrite !Join_cons, Join_tail_app. simpl.
  now rewrite !string_app_assoc.
Qed.

Lemma Join_app_witness :
  Join ([FirstName; LastName] ++ [WorkEmail])%list ","
  = Join [FirstName; LastName] "," +:+ "," +:+ Join [WorkEmail] ",".
Proof. apply Join_app; discriminate. Defined.

Lemma has_byte_cons (sep a : ascii) (t : string) :
  has_byte sep (String a t) = false →
  Ascii.eqb a sep = false ∧ has_byte sep t = false.
Proof.
  unfold has_byte. simpl. intros H.
  apply orb_false_iff in H as [Ha Ht].
  now rewrite Ascii.eqb_sym.
Qed.

Lemma split_token (sep : ascii) (t : string) :
  has_byte sep t = false → Service.split sep t = [t].
Proof.
  induction t as [|a t IH]; intros Ht; [reflexivity|].
  apply has_byte_cons in Ht as [Ha Ht].
  simpl. now rewrite Ha, (IH Ht).
Qed.

Lemma split_token_sep (sep : ascii) (t r : string) :
  has_byte sep t = false →
  Service.split sep (t +:+ String sep r) = t :: Service.split sep r.
Proof.
  induction t as [|a t IH]; intros Ht.
  - change ("" +:+ String sep r) with (String sep r).
    simpl. now rewrite Ascii.eqb_refl.
  - apply has_byte_cons in Ht as [Ha Ht].
    rewrite string_app_cons. simpl. now rewrite Ha, (IH Ht).
Qed.

(** X2.  Cutting a joined string at a one-byte separator gives back the
    field set, provided the field set is not empty and no token holds
    the separator byte. *)
Theorem split_Join (sep : ascii) (ef : EmployeeFields) :
  ef ≠ [] →
  Forall (fun t => has_byte sep t = false) ef →
  Service.split sep (Join ef (String sep "")) = ef.
Proof.
  intros Hne Hef. destruct ef as [|ef0 rest]; [contradiction|]. clear Hne.
  revert ef0 Hef. induction rest as [|ef1 rest IH]; intros ef0 Hef.
  - apply Forall_cons_iff in Hef as [H0 _]. simpl. now apply split_token.
  - apply Forall_cons_iff in Hef as [H0 Hrest].
    rewrite Join_cons_cons.
    change (String sep "" +:+ Join (ef1 :: rest) (String sep ""))
      with (String sep (Join (ef1 :: rest) (String sep ""))).
    rewrite (split_token_sep _ _ _ H0). now rewrite (IH _ Hrest).
Qed.

Lemma split_Join_witness :
  Service.split "," default_fields_joined = default_fields.
Proof.
  apply (split_Join "," default_fields); [discriminate|].
  unfold default_fields. repeat constructor.
Defined.

(** The empty field set is the exception: it joins to the same string
    as the field set holding one empty token. *)
Example Join_nil_is_Join_empty_token (sep : string) :
  Join [] sep = Join [""] sep.
Proof. reflexivity. Qed.



(** ** Requests, errors and composition of the client operations *)

Section Traces.
Context {env : Env}.
Implicit Types (c : Client) (s : State) (email id : string)
  (directory : list Employee.t) (fields : list EmployeeField).

Lemma sent_extends {A : Type} (m : M A) s (l : list (Request Ctx)) :
  issued (m s).2 = (issued s ++ l)%list → sent m s = l.
Proof. intros Hl. unfold sent. now rewrite Hl, drop_app_length. Qed.

Lemma sent_nil {A : Type} (m : M A) s : (m s).2 = s → sent m s = [].
Proof.
  intros Hs. apply sent_extends. now rewrite Hs, app_nil_r.
Qed.

(** *** Runs, case by case *)

Lemma GetEmployeeDirectory_run_ok c (cx : Ctx) s (u : url.URL) :
  url_Parse (BaseURL c +:+ "/employees/directory") = inr u →
  ∃ (er : EmployeeResponse) (err : option ExtErr) (w : World),
    Client_makeRequest c OutEmployeeResponse (directory_request u cx)
      {| Employees := [] |} (world s) = ((er, err), w)
    ∧ GetEmployeeDirectory c cx s
      = ((match err with Some _ => [] | None => Employees er end,
          Collab <$> err),
         {| world := w;
            issued := (issued s ++ [directory_request u cx])%list |}).
Proof.
  intros Hp. unfold GetEmployeeDirectory, NewRequest. rewrite Hp.
  unfold mbind, M_bind, makeRequest, WithContext, directory_request. simpl.
  destruct (Client_makeRequest c OutEmployeeResponse _ _ (world s))
    as [[er [err|]] w]; eauto.
Qed.

Lemma GetEmployee_run_ok c (cx : Ctx) id fields s (u : url.URL) :
  url_Parse (BaseURL c +:+ "/employees/" +:+ id) = inr u →
  ∃ (employee : Employee.t) (err : option ExtErr) (w : World),
    Client_makeRequest c OutEmployee (employee_request u cx fields)
      Employee.zero (world s) = ((employee, err), w)
    ∧ GetEmployee c cx id fields s
      = ((employee, Collab <$> err),
         {| world := w;
            issued := (issued s ++ [employee_request u cx fields])%list |}).
Proof.
  intros Hp. pose proof (GetEmployee_run c cx id fields s u Hp) as Hrun.
  simpl in Hrun. unfold employee_request.
  destruct (Client_makeRequest c OutEmployee _ _ (world s))
    as [[employee err] w]. eauto.
Qed.

Lemma GetEmployeeDirectory_error c (cx : Ctx) s (e : error) :
  (GetEmployeeDirectory c cx s).1.2 = Some e → ∃ x : ExtErr, e = Collab x.
Proof.
  destruct (url_Parse (BaseURL c +:+ "/employees/directory"))
    as [err|u] eqn:Hp.
  - rewrite (GetEmployeeDirectory_bad_url _ _ _ _ Hp). simpl.
    intros [= <-]. eauto.
  - destruct (GetEmployeeDirectory_run_ok c cx s u Hp)
      as (er & [x|] & w & _ & ->); simpl; [|discriminate].
    intros [= <-]. eauto.
Qed.

Lemma GetEmployeeDirectory_issued c (cx : Ctx) s :
  issued (GetEmployeeDirectory c cx s).2
  = (issued s
     ++ match url_Parse (BaseURL c +:+ "/employees/directory") with
        | inl _ => []
        | inr u => [directory_request u cx]
        end)%list.
Proof.
  destruct (url_Parse (BaseURL c +:+ "/employees/directory"))
    as [err|u] eqn:Hp.
  - rewrite (GetEmployeeDirectory_bad_url _ _ _ _ Hp). simpl.
    now rewrite app_nil_r.
  - now destruct (GetEmployeeDirectory_run_ok c cx s u Hp)
      as (er & err & w & _ & ->).
Qed.

Lemma GetEmployee_issued c (cx : Ctx) id fields s :
  issued (GetEmployee c cx id fields s).2
  = (issued s
     ++ match url_Parse (BaseURL c +:+ "/employees/" +:+ id) with
        | inl _ => []
        | inr u => [employee_request u cx fields]
        end)%list.
Proof.
  destruct (url_Parse (BaseURL c +:+ "/employees/" +:+ id))
    as [err|u] eqn:Hp.
  - rewrite (GetEmployee_bad_url _ _ _ _ _ _ Hp). simpl.
    now rewrite app_nil_r.
  - now destruct (GetEmployee_run_ok c cx id fields s u Hp)
      as (employee & err & w & _ & ->).
Qed.

Lemma GetEmployeeIDByEmail_state c email s :
  (GetEmployeeIDByEmail c email s).2 = (GetEmployeeDirectory c TODO s).2.
Proof.
  unfold GetEmployeeIDByEmail, mbind, M_bind.
  now destruct (GetEmployeeDirectory c TODO s) as [[directory [err|]] s'].
Qed.

Lemma GetEmployeeByEmail_directory_error c (cx : Ctx) email fields s
    directory (err : error) s' :
  GetEmployeeDirectory c cx s = ((directory, Some err), s') →
  GetEmployeeByEmail c cx email fields s = ((Employee.zero, Some err), s').
Proof.
  intros Hdir. unfold GetEmployeeByEmail.
  now rewrite (run_bind _ _ _ _ _ Hdir).
Qed.

(** *** Which requests are sent *)

(** X4.  [GetEmployeeIDByEmail] sends the directory request and nothing
    else, and sends it under [context.TODO()], whatever the e-mail and
    whatever the answer; when the directory URL does not parse it sends
    nothing. *)
Theorem GetEmployeeIDByEmail_sent c email s :
  sent (GetEmployeeIDByEmail c email) s
  = match url_Parse (BaseURL c +:+ "/employees/directory") with
    | inl _ => []
    | inr u => [ {| Method := "GET"; URL := u; ctx := TODO |} ]
    end.
Proof.
  apply sent_extends.
  rewrite GetEmployeeIDByEmail_state. apply GetEmployeeDirectory_issued.
Qed.

(** X5.  [GetEmployeeByEmail] sends at most two requests, every one of
    them a [GET] under the caller's context; when the directory URL
    parses the first is the directory request, and when it does not,
    nothing is sent. *)
Theorem GetEmployeeByEmail_sent c (cx : Ctx) email fields s :
  let l := sent (GetEmployeeByEmail c cx email fields) s in
  length l <= 2
  ∧ Forall (fun req => Method req = "GET" ∧ ctx req = cx) l
  ∧ match url_Parse (BaseURL c +:+ "/employees/directory") with
    | inl _ => l = []
    | inr u => head l = Some {| Method := "GET"; URL := u; ctx := cx |}
    end.
Proof.
  pose proof (GetEmployeeDirectory_issued c cx s) as Hdir.
  destruct (GetEmployeeDirectory c cx s) as [[directory err] s'] eqn:Hrun.
  simpl in Hdir.
  assert (Hshape :
    ∃ l2, sent (GetEmployeeByEmail c cx email fields) s
          = (match url_Parse (BaseURL c +:+ "/employees/directory") with
             | inl _ => []
             | inr u => [directory_request u cx]
             end ++ l2)%list
          ∧ length l2 <= 1
          ∧ Forall (fun req => Method req = "GET" ∧ ctx req = cx) l2
          ∧ (err ≠ None → l2 = [])).
  { destruct err as [err|].
    - exists []. rewrite app_nil_r. split; [|repeat split; auto].
      apply sent_extends.
      now rewrite (GetEmployeeByEmail_directory_error _ _ _ _ _ _ _ _ Hrun).
    - rewrite (sent_extends (GetEmployeeByEmail c cx email fields) s
                 (match url_Parse (BaseURL c +:+ "/employees/directory") with
                  | inl _ => []
                  | inr u => [directory_request u cx]
                  end
                  ++ (if (String.length
                            (GetEmployeeByEmail_scan "" directory email) =? 0)%nat
                      then []
                      else match url_Parse
                                   (BaseURL c +:+ "/employees/"
                                    +:+ GetEmployeeByEmail_scan "" directory email)
                           with
                           | inl _ => []
                           | inr u => [employee_request u cx fields]
                           end))%list).
      + eexists. split; [reflexivity|].
        destruct (String.length _ =? 0)%nat; simpl;
          [repeat split; auto; lia|].
        destruct (url_Parse (_ +:+ "/employees/" +:+ _)); simpl;
          repeat split; auto; try lia; try congruence.
      + rewrite (GetEmployeeByEmail_run _ _ _ _ _ _ _ Hrun). simpl.
        destruct (String.length _ =? 0)%nat; simpl.
        * now rewrite Hdir, app_nil_r.
        * now rewrite GetEmployee_issued, Hdir, app_assoc. }
  destruct Hshape as (l2 & -> & Hlen & Hall & Hnil).
  assert (Hbad : ∀ e, url_Parse (BaseURL c +:+ "/employees/directory") = inl e
                      → err ≠ None).
  { intros e He. rewrite (GetEmployeeDirectory_bad_url _ _ _ _ He) in Hrun.
    injection Hrun as _ <- _. discriminate. }
  destruct (url_Parse (BaseURL c +:+ "/employees/directory")) as [e|u];
    simpl.
  - rewrite (Hnil (Hbad e eq_refl)). repeat split; auto.
  - split; [lia|]. split; [|reflexivity].
    constructor; [split; reflexivity | exact Hall].
Qed.

(** *** Where errors come from *)

(** X6.  [GetEmployeeDirectory], [GetEmployeeIDByEmail] and
    [GetEmployee] never return an error of their own making: every
    error they return was handed up by URL parsing or by [makeRequest].
    [GetEmployeeByEmail] returns either such an error or the one error
    this file builds, "No employee found". *)
Theorem errors_origin c (cx : Ctx) email id fields s (e : error) :
  ((GetEmployeeDirectory c cx s).1.2 = Some e → ∃ x, e = Collab x)
  ∧ ((GetEmployeeIDByEmail c email s).1.2 = Some e → ∃ x, e = Collab x)
  ∧ ((GetEmployee c cx id fields s).1.2 = Some e → ∃ x, e = Collab x)
  ∧ ((GetEmployeeByEmail c cx email fields s).1.2 = Some e →
     e = errors_New "No employee found" ∨ ∃ x, e = Collab x).
Proof.
  split; [apply GetEmployeeDirectory_error|].
  split; [|split; [apply GetEmployee_error|]].
  - destruct (GetEmployeeDirectory c TODO s) as [[directory err] s'] eqn:Hrun.
    destruct err as [err|].
    + unfold GetEmployeeIDByEmail. rewrite (run_bind _ _ _ _ _ Hrun). simpl.
      intros [= <-].
      apply (GetEmployeeDirectory_error c TODO s). now rewrite Hrun.
    + rewrite (GetEmployeeIDByEmail_run _ _ _ _ _ Hrun). simpl.
      destruct (first_match_or_none email directory) as [Hnone|[x Hx]].
      * now rewrite (GetEmployeeIDByEmail_scan_none _ _ Hnone).
      * now rewrite (GetEmployeeIDByEmail_scan_first _ _ _ Hx).
  - destruct (GetEmployeeDirectory c cx s) as [[directory err] s'] eqn:Hrun.
    destruct err as [err|].
    + rewrite (GetEmployeeByEmail_directory_error _ _ _ _ _ _ _ _ Hrun).
      simpl. intros [= <-]. right.
      apply (GetEmployeeDirectory_error c cx s). now rewrite Hrun.
    + rewrite (GetEmployeeByEmail_run _ _ _ _ _ _ _ Hrun). simpl.
      destruct (String.length _ =? 0)%nat; simpl.
      * intros [= <-]. now left.
      * intros He. right. now apply GetEmployee_error in He.
Qed.

(** X7.  Whenever [GetEmployeeByEmail] returns "No employee found", the
    directory fetch had succeeded, the scan found no usable identifier,
    exactly one request has been sent, and the [Employee] returned is
    the zero value. *)
Theorem not_found_after_one_request c (cx : Ctx) email fields s :
  (GetEmployeeByEmail c cx email fields s).1.2 = Some NotFoundError →
  ∃ directory (req : Request Ctx),
    GetEmployeeDirectory c cx s
    = ((directory, None), (GetEmployeeByEmail c cx email fields s).2)
    ∧ GetEmployeeByEmail_scan "" directory email = ""
    ∧ (GetEmployeeByEmail c cx email fields s).1.1 = Employee.zero
    ∧ sent (GetEmployeeByEmail c cx email fields) s = [req].
Proof.
  destruct (GetEmployeeDirectory c cx s) as [[directory err] s'] eqn:Hrun.
  destruct err as [err|].
  - rewrite (GetEmployeeByEmail_directory_error _ _ _ _ _ _ _ _ Hrun).
    simpl. intros [= ->].
    destruct (GetEmployeeDirectory_error c cx s NotFoundError) as [x Hx];
      [now rewrite Hrun | discriminate Hx].
  - rewrite (GetEmployeeByEmail_run _ _ _ _ _ _ _ Hrun). simpl.
    destruct (String.length _ =? 0)%nat eqn:Hlen; simpl.
    + intros _. apply length_zero_empty in Hlen.
      destruct (GetEmployeeDirectory_ok_issued _ _ _ _ _ Hrun) as [req Hreq].
      exists directory, req. repeat split; try assumption.
      apply sent_extends.
      rewrite (GetEmployeeByEmail_run _ _ _ _ _ _ _ Hrun). simpl.
      apply length_zero_empty in Hlen. now rewrite Hlen.
    + intros He. apply GetEmployee_error in He as [x Hx]. discriminate Hx.
Qed.

(** X8.  When the directory URL does not parse, [GetEmployeeIDByEmail]
    and [GetEmployeeByEmail] return the parser's error, with the empty
    string and the zero [Employee], and leave the state as it was:
    [makeRequest] is not called. *)
Theorem bad_directory_url c (cx : Ctx) email fields s (err : ExtErr) :
  url_Parse (BaseURL c +:+ "/employees/directory") = inl err →
  GetEmployeeIDByEmail c email s = (("", Some (Collab err)), s)
  ∧ GetEmployeeByEmail c cx email fields s
    = ((Employee.zero, Some (Collab err)), s).
Proof.
  intros Hp. split.
  - unfold GetEmployeeIDByEmail.
    now rewrite (run_bind _ _ _ _ _ (GetEmployeeDirectory_bad_url c TODO s _ Hp)).
  - exact (GetEmployeeByEmail_directory_error _ _ _ _ _ _ _ _
             (GetEmployeeDirectory_bad_url c cx s _ Hp)).
Qed.

(** X9.  When the first matching entry's [ID] makes a URL that does not
    parse, [GetEmployeeByEmail] returns the parser's error with the zero
    [Employee], in the state the directory fetch left: no second request
    is sent. *)
Theorem bad_employee_url c (cx : Ctx) email fields s directory s'
    (e : Employee.t) (err : ExtErr) :
  GetEmployeeDirectory c cx s = ((directory, None), s') →
  first_match email directory e →
  Employee.ID e ≠ "" →
  url_Parse (BaseURL c +:+ "/employees/" +:+ Employee.ID e) = inl err →
  GetEmployeeByEmail c cx email fields s
  = ((Employee.zero, Some (Collab err)), s').
Proof.
  intros Hdir He Hid Hp.
  rewrite (GetEmployeeByEmail_delegates _ _ _ _ _ _ _ _ Hdir He Hid).
  exact (GetEmployee_bad_url _ _ _ _ _ _ Hp).
Qed.

(** *** What [GetEmployee] returns and what it leaves alone *)



(** *** How the operations compose *)

Lemma scans_agree email directory :
  GetEmployeeIDByEmail_scan directory email
  = (GetEmployeeByEmail_scan "" directory email, None).
Proof.
  induction directory as [|e directory IH]; simpl; [reflexivity|].
  now destruct (String.eqb (Employee.WorkEmail e) email).
Qed.

(** X12.  On the same directory, [GetEmployeeByEmail] is
    [GetEmployeeIDByEmail] followed by [GetEmployee]: it fails with "No
    employee found" when [GetEmployeeIDByEmail] returns the empty
    string, and otherwise is [GetEmployee] on the identifier that
    [GetEmployeeIDByEmail] returns, run after the directory fetch. *)
Theorem by_email_is_id_then_employee c (cx : Ctx) email fields s1 s1' s2 s2'
    directory :
  GetEmployeeDirectory c TODO s1 = ((directory, None), s1') →
  GetEmployeeDirectory c cx s2 = ((directory, None), s2') →
  ∃ id, GetEmployeeIDByEmail c email s1 = ((id, None), s1')
    ∧ GetEmployeeByEmail c cx email fields s2
      = if String.eqb id ""
        then ((Employee.zero, Some NotFoundError), s2')
        else GetEmployee c cx id fields s2'.
Proof.
  intros H1 H2.
  exists (GetEmployeeByEmail_scan "" directory email). split.
  - now rewrite (GetEmployeeIDByEmail_run _ _ _ _ _ H1), scans_agree.
  - rewrite (GetEmployeeByEmail_run _ _ _ _ _ _ _ H2). simpl.
    destruct (String.eqb_spec (GetEmployeeByEmail_scan "" directory email) "")
      as [->|Hne]; [reflexivity|].
    destruct (String.length _ =? 0)%nat eqn:Hlen; [|reflexivity].
    apply length_zero_empty in Hlen. contradiction.
Qed.

(** X13.  When both URLs parse, the directory fetch succeeds and the
    first matching entry has a non-empty [ID], [GetEmployeeByEmail]
    sends exactly two requests, in this order: the directory request,
    then the request for that [ID] with the caller's fields (or the
    default list), both under the caller's context. *)
Theorem GetEmployeeByEmail_two_requests c (cx : Ctx) email fields s
    directory s' (e : Employee.t) (u1 u2 : url.URL) :
  url_Parse (BaseURL c +:+ "/employees/directory") = inr u1 →
  GetEmployeeDirectory c cx s = ((directory, None), s') →
  first_match email directory e →
  Employee.ID e ≠ "" →
  url_Parse (BaseURL c +:+ "/employees/" +:+ Employee.ID e) = inr u2 →
  sent (GetEmployeeByEmail c cx email fields) s
  = [ {| Method := "GET"; URL := u1; ctx := cx |};
      {| Method := "GET";
         URL := url.set_RawQuery u2
                  (url.Add (url.Query u2) "fields"
                     (Join (requested fields) ","));
         ctx := cx |} ].
Proof.
  intros Hp1 Hdir He Hid Hp2. apply sent_extends.
  rewrite (GetEmployeeByEmail_delegates _ _ _ _ _ _ _ _ Hdir He Hid).
  rewrite GetEmployee_issued, Hp2.
  pose proof (GetEmployeeDirectory_issued c cx s) as Hiss.
  rewrite Hdir, Hp1 in Hiss. simpl in Hiss.
  now rewrite Hiss, <- app_assoc.
Qed.

End Traces.

(** ** The further properties at concrete inputs *)

Lemma not_found_after_one_request_witness :
  ∃ directory (req : Request (Ctx (Env := Service.env))),
    GetEmployeeDirectory (env := Service.env) Service.client 2
      (Service.start 2 [Service.entry "7" "a@x.com"])
    = ((directory, None),
       (GetEmployeeByEmail (env := Service.env) Service.client 2
          "missing@x.com" []
          (Service.start 2 [Service.entry "7" "a@x.com"])).2)
    ∧ GetEmployeeByEmail_scan "" directory "missing@x.com" = ""
    ∧ (GetEmployeeByEmail (env := Service.env) Service.client 2
         "missing@x.com" []
         (Service.start 2 [Service.entry "7" "a@x.com"])).1.1
      = Employee.zero
    ∧ sent (GetEmployeeByEmail (env := Service.env) Service.client 2
              "missing@x.com" [])
        (Service.start 2 [Service.entry "7" "a@x.com"])
      = [req].
Proof.
  exact (not_found_after_one_request (env := Service.env) Service.client 2
           "missing@x.com" []
           (Service.start 2 [Service.entry "7" "a@x.com"]) eq_refl).
Defined.

Lemma bad_directory_url_witness :
  GetEmployeeIDByEmail (env := Service.env) Service.bad_client "a@x.com"
    (Service.start 2 [Service.entry "7" "a@x.com"])
  = (("", Some (Collab (env := Service.env)
                  "net/url: invalid control character in URL")),
     Service.start 2 [Service.entry "7" "a@x.com"])
  ∧ GetEmployeeByEmail (env := Service.env) Service.bad_client 2 "a@x.com"
      [WorkEmail] (Service.start 2 [Service.entry "7" "a@x.com"])
    = ((Employee.zero,
        Some (Collab (env := Service.env)
                "net/url: invalid control character in URL")),
       Service.start 2 [Service.entry "7" "a@x.com"]).
Proof.
  exact (bad_directory_url (env := Service.env) Service.bad_client 2
           "a@x.com" [WorkEmail]
           (Service.start 2 [Service.entry "7" "a@x.com"])
           "net/url: invalid control character in URL" eq_refl).
Defined.

Lemma bad_employee_url_witness :
  GetEmployeeByEmail (env := Service.env) Service.client 2 "a@x.com" []
    (Service.start 2
       [Service.entry (String "127"%char EmptyString) "a@x.com"])
  = ((Employee.zero,
      Some (Collab (env := Service.env)
              "net/url: invalid control character in URL")),
     (GetEmployeeDirectory (env := Service.env) Service.client 2
        (Service.start 2
           [Service.entry (String "127"%char EmptyString) "a@x.com"])).2).
Proof.
  refine (bad_employee_url (env := Service.env) Service.client 2 "a@x.com" []
            (Service.start 2
               [Service.entry (String "127"%char EmptyString) "a@x.com"])
            [Service.entry (String "127"%char EmptyString) "a@x.com"] _
            (Service.entry (String "127"%char EmptyString) "a@x.com")
            "net/url: invalid control character in URL"
            eq_refl _ _ eq_refl).
  - exists [], []. split; [reflexivity|]. split; [constructor | reflexivity].
  - discriminate.
Defined.



Lemma by_email_is_id_then_employee_witness :
  ∃ id,
    GetEmployeeIDByEmail (env := Service.env) Service.client "a@x.com"
      (Service.start 2 [Service.entry "7" "a@x.com"])
    = ((id, None),
       (GetEmployeeDirectory (env := Service.env) Service.client TODO
          (Service.start 2 [Service.entry "7" "a@x.com"])).2)
    ∧ GetEmployeeByEmail (env := Service.env) Service.client 2 "a@x.com"
        [WorkEmail] (Service.start 2 [Service.entry "7" "a@x.com"])
      = if String.eqb id ""
        then ((Employee.zero, Some NotFoundError),
              (GetEmployeeDirectory (env := Service.env) Service.client 2
                 (Service.start 2 [Service.entry "7" "a@x.com"])).2)
        else GetEmployee (env := Service.env) Service.client 2 id [WorkEmail]
               (GetEmployeeDirectory (env := Service.env) Service.client 2
                  (Service.start 2 [Service.entry "7" "a@x.com"])).2.
Proof.
  exact (by_email_is_id_then_employee (env := Service.env) Service.client 2
           "a@x.com" [WorkEmail]
           (Service.start 2 [Service.entry "7" "a@x.com"]) _
           (Service.start 2 [Service.entry "7" "a@x.com"]) _
           [Service.entry "7" "a@x.com"] eq_refl eq_refl).
Defined.

Lemma GetEmployeeByEmail_two_requests_witness :
  Service.view
    <$> sent (GetEmployeeByEmail (env := Service.env) Service.client 2
                "a@x.com" [WorkEmail; JobTitle])
          (Service.start 2 [Service.entry "7" "a@x.com"])
  = [("GET", "https://hr.example/v1/employees/directory", "", 2);
     ("GET", "https://hr.example/v1/employees/7", "WorkEmail,JobTitle", 2)].
Proof.
  assert (He : first_match "a@x.com" [Service.entry "7" "a@x.com"]
                 (Service.entry "7" "a@x.com")).
  { exists [], []. split; [reflexivity|]. split; [constructor | reflexivity]. }
  rewrite (GetEmployeeByEmail_two_requests (env := Service.env)
             Service.client 2 "a@x.com" [WorkEmail; JobTitle]
             (Service.start 2 [Service.entry "7" "a@x.com"])
             [Service.entry "7" "a@x.com"]
             (GetEmployeeDirectory (env := Service.env) Service.client 2
                (Service.start 2 [Service.entry "7" "a@x.com"])).2
             (Service.entry "7" "a@x.com")
             {| url.Scheme := ""; url.Host := "";
                url.Path := "https://hr.example/v1/employees/directory";
                url.RawQuery := ∅; url.Fragment := "" |}
             {| url.Scheme := ""; url.Host := "";
                url.Path := "https://hr.example/v1/employees/7";
                url.RawQuery := ∅; url.Fragment := "" |}
             eq_refl eq_refl
             He ltac:(discriminate) eq_refl).
  reflexivity.
Defined.

(** ** The default field list as an argument *)

Section Defaults.
Context {env : Env}.

(** X14.  Naming no fields is the same call as naming the eighteen
    default fields explicitly: [GetEmployee] and [GetEmployeeByEmail]
    send the same requests and return the same results for both. *)
Theorem no_fields_is_default_fields (c : Client) (cx : Ctx)
    (id email : string) (s : State) :
  GetEmployee c cx id [] s = GetEmployee c cx id default_fields s
  ∧ GetEmployeeByEmail c cx email [] s
    = GetEmployeeByEmail c cx email default_fields s.
Proof.
  assert (Hget : ∀ id' s', GetEmployee c cx id' [] s'
                           = GetEmployee c cx id' default_fields s').
  { intros id' s'. unfold GetEmployee.
    destruct (NewRequest "GET" _) as [err|req]; reflexivity. }
  split; [apply Hget|].
  unfold GetEmployeeByEmail, mbind, M_bind.
  destruct (GetEmployeeDirectory c cx s) as [[directory [err|]] s'];
    [reflexivity|].
  destruct (String.length _ =? 0)%nat; [reflexivity | apply Hget].
Qed.

End Defaults.
